(** * tools/global_domains.py: the global equivalent domains generator

    A shallow embedding of the script and the verification of its line
    extractors, its merge loop and its command-line behaviour.

    Python strings are sequences of Unicode code points: a character is a
    code point of type [N], a string a [list N].  The two compiled patterns
    are kept as regular expressions and run by a backtracking matcher with
    the greedy semantics of [re.match]; the script itself is a computation
    in a state-and-exception monad over the standard output and the file
    system. *)

From Stdlib Require Import ZArith NArith Ascii String List Lia.
From Stdlib Require Import DecimalString DecimalZ.
From stdpp Require Import base option list gmap.

Local Open Scope N_scope.

(** ** Strings *)

Abbreviation char := N (only parsing).
Abbreviation str := (list N) (only parsing).

(** A Python literal made of ASCII characters. *)
Definition py (s : string) : str :=
  N_of_ascii <$> list_ascii_of_string s.

(** The double-quote character. *)
Definition dq : char := 34.

Definition quoted (s : str) : str := dq :: s ++ [dq].

(** ** Character classes *)

Definition in_range (lo hi c : char) : bool := (lo <=? c) && (c <=? hi).

(** [[0-9]] *)
Definition is_digit (c : char) : bool := in_range 48 57 c.

(** [[_0-9a-zA-Z]] *)
Definition is_word (c : char) : bool :=
  (c =? 95) || in_range 48 57 c || in_range 97 122 c || in_range 65 90 c.

(** [\s] in a [str] pattern: the code points for which [str.isspace] holds. *)
Definition is_space (c : char) : bool :=
  in_range 9 13 c || in_range 28 32 c || (c =? 133) || (c =? 160)
  || (c =? 5760) || in_range 8192 8202 c || (c =? 8232) || (c =? 8233)
  || (c =? 8239) || (c =? 8287) || (c =? 12288).

(** [[^}]] *)
Definition not_rbrace (c : char) : bool := negb (c =? 125).

(** ** String methods *)

Fixpoint take_while (p : char -> bool) (s : str) : str :=
  match s with
  | c :: s' => if p c then c :: take_while p s' else []
  | [] => []
  end.

Fixpoint drop_while (p : char -> bool) (s : str) : str :=
  match s with
  | c :: s' => if p c then drop_while p s' else s
  | [] => []
  end.

(** [s.split(sep)] for a separator of one character: the fragments between
    the separators, empty ones kept, at least one fragment. *)
Fixpoint split (sep : char) (s : str) : list str :=
  match s with
  | [] => [[]]
  | c :: s' =>
      if c =? sep then [] :: split sep s'
      else match split sep s' with
           | w :: ws => (c :: w) :: ws
           | [] => [[c]]
           end
  end.

Definition mem (chars : str) (c : char) : bool :=
  existsb (N.eqb c) chars.

Definition lstrip (chars : str) (s : str) : str := drop_while (mem chars) s.

Definition rstrip (chars : str) (s : str) : str :=
  rev (drop_while (mem chars) (rev s)).

(** [s.strip(chars)] *)
Definition strip (chars : str) (s : str) : str := rstrip chars (lstrip chars s).

(** ** Exceptions *)

Inductive exn : Type :=
  | SystemExit (code : Z)
  | IndexError
  | KeyError (key : str)
  | ValueError
  | URLError (url : str)
  | OSError (path : str).

Inductive result (A : Type) : Type :=
  | Ok (a : A)
  | Raise (e : exn).
Arguments Ok {A} a.
Arguments Raise {A} e.

Definition rbind {A B} (r : result A) (f : A -> result B) : result B :=
  match r with
  | Ok a => f a
  | Raise e => Raise e
  end.

Notation "'let*' x ':=' r 'in' k" := (rbind r (fun x => k))
  (at level 10, x name, r at level 100, k at level 200).

(** A [for] loop whose body may raise. *)
Fixpoint for_each {A S} (body : S -> A -> result S) (xs : list A) (s : S)
  : result S :=
  match xs with
  | [] => Ok s
  | x :: xs' => let* s' := body s x in for_each body xs' s'
  end.

(** [int(s)] on an unsigned ASCII decimal literal, the only form of
    argument the script passes; on anything else this model raises
    [ValueError] (the builtin accepts more: signs, blanks, underscores).
    Integers are unbounded, but the interpreter refuses to convert a
    literal of more than [sys.get_int_max_str_digits()] digits, leading
    zeros counted, unless that limit is 0.  The script does not set the
    limit: it is the interpreter's, 4300 by default, 0 where the
    interpreter has none. *)
Definition digit_value (c : char) : Z := Z.of_N (c - 48).

Definition decimal (s : str) : Z :=
  fold_left (fun acc c => (10 * acc + digit_value c)%Z) s 0%Z.

Definition int (max_str_digits : nat) (s : str) : result Z :=
  match s with
  | [] => Raise ValueError
  | _ :: _ =>
      if forallb is_digit s then
        if ((0 <? max_str_digits) && (max_str_digits <? length s))%nat
        then Raise ValueError
        else Ok (decimal s)
      else Raise ValueError
  end.

(** ** Regular expressions *)

Inductive re : Type :=
  | Str (lit : str)
  | Star (cs : char -> bool)
  | Plus (cs : char -> bool)
  | Seq (a b : re)
  | Group (n : nat) (a : re).

Infix "+++" := Seq (at level 60, right associativity).

(** The input after a literal, when the input starts with it. *)
Fixpoint skip (lit s : str) : option str :=
  match lit, s with
  | [], _ => Some s
  | c :: lit', x :: s' => if x =? c then skip lit' s' else None
  | _ :: _, [] => None
  end.

(** The groups of a match, the last one closed first. *)
Abbreviation groups := (list (nat * str)) (only parsing).

(** A greedy repetition of a character class: the longest run first, then
    shorter ones while the rest of the pattern fails. *)
Fixpoint greedy {A} (cs : char -> bool) (k : str -> option A) (s : str)
  : option A :=
  match s with
  | c :: s' =>
      if cs c then
        match greedy cs k s' with
        | Some r => Some r
        | None => k s
        end
      else k s
  | [] => k []
  end.

(** The backtracking matcher: [run r k s g] matches [r] at the head of [s]
    and hands the rest of the input and the groups to [k]. *)
Fixpoint run (r : re) (k : str -> groups -> option groups) (s : str)
  (g : groups) : option groups :=
  match r with
  | Str lit =>
      match skip lit s with
      | Some s' => k s' g
      | None => None
      end
  | Star cs => greedy cs (fun s' => k s' g) s
  | Plus cs =>
      match s with
      | x :: s' => if cs x then greedy cs (fun s' => k s' g) s' else None
      | [] => None
      end
  | Seq a b => run a (run b k) s g
  | Group n a =>
      run a (fun s' g' => k s' ((n, take (length s - length s') s) :: g')) s g
  end.

(** [pattern.match(s)]: anchored at the start of [s], not at its end. *)
Definition re_match (r : re) (s : str) : option groups :=
  run r (fun _ g => Some g) s [].

(** [m.group(n)] *)
Definition group (m : groups) (n : nat) : result str :=
  match list_find (fun p => fst p = n) m with
  | Some (_, (_, s)) => Ok s
  | None => Raise IndexError
  end.

(** ** The two patterns *)

Definition ENUM_RE : re :=
  Star is_space +++
  Group 1 (Plus is_word) +++
  Star is_space +++ Str (py "=") +++ Star is_space +++
  Group 2 (Plus is_digit).

Definition DOMAIN_LIST_RE : re :=
  Star is_space +++
  Str (py "GlobalDomains.Add(GlobalEquivalentDomainsType.") +++
  Group 1 (Plus is_word) +++
  Star is_space +++ Str (py ",") +++ Star is_space +++
  Str (py "new List<string>") +++ Star is_space +++ Str (py "{") +++
  Group 2 (Plus not_rbrace) +++
  Str (py "});").

(** ** The two mappings *)

(** [enums = dict()]: used for lookup by name only. *)
Definition getitem (d : gmap str Z) (k : str) : result Z :=
  match d !! k with
  | Some v => Ok v
  | None => Raise (KeyError k)
  end.

(** An [OrderedDict]: the items in insertion order, every key once. *)
Abbreviation odict V := (list (str * V)) (only parsing).

(** [od[k] = v]: a new key goes to the end, a known key keeps its place. *)
Fixpoint od_set {V} (k : str) (v : V) (od : odict V) : odict V :=
  match od with
  | [] => [(k, v)]
  | (k', v') :: od' =>
      if decide (k' = k) then (k, v) :: od' else (k', v') :: od_set k v od'
  end.

Fixpoint od_get {V} (k : str) (od : odict V) : option V :=
  match od with
  | [] => None
  | (k', v') :: od' => if decide (k' = k) then Some v' else od_get k od'
  end.

(** ** Reading the enum names and values (lines 57 to 60) *)

Definition enums_body (max_str_digits : nat) (enums : gmap str Z) (ln : str)
  : result (gmap str Z) :=
  match re_match ENUM_RE ln with
  | Some m =>
      let* name := group m 1 in
      let* digits := group m 2 in
      let* value := int max_str_digits digits in
      Ok (<[name := value]> enums)
  | None => Ok enums
  end.

Definition read_enums (max_str_digits : nat) (text : str)
  : result (gmap str Z) :=
  for_each (enums_body max_str_digits) (split 10 text) ∅.

(** ** Reading the domain lists (lines 64 to 68) *)

Definition strip_chars : str := py " " ++ [dq].

Definition domain_lists_body (domain_lists : odict (list str)) (ln : str)
  : result (odict (list str)) :=
  match re_match DOMAIN_LIST_RE ln with
  | Some m =>
      let* name := group m 1 in
      let* span := group m 2 in
      Ok (od_set name (strip strip_chars <$> split 44 span) domain_lists)
  | None => Ok domain_lists
  end.

Definition read_domain_lists (text : str) : result (odict (list str)) :=
  for_each domain_lists_body (split 10 text) [].

(** ** Building the global domains data structure (lines 71 to 77) *)

Inductive pyval : Type :=
  | PInt (z : Z)
  | PList (l : list str)
  | PBool (b : bool).

Definition global_domains_body (enums : gmap str Z)
  (global_domains : list (odict pyval)) (item : str * list str)
  : result (list (odict pyval)) :=
  let '(name, domain_list) := item in
  let entry := [] in
  let* type := getitem enums name in
  let entry := od_set (py "type") (PInt type) entry in
  let entry := od_set (py "domains") (PList domain_list) entry in
  let entry := od_set (py "excluded") (PBool false) entry in
  Ok (global_domains ++ [entry]).

Definition build_global_domains (enums : gmap str Z)
  (domain_lists : odict (list str)) : result (list (odict pyval)) :=
  for_each (global_domains_body enums) domain_lists [].

(** Extraction and merge of the two texts. *)
Definition pipeline (max_str_digits : nat) (enum_text list_text : str)
  : result (list (odict pyval)) :=
  let* enums := read_enums max_str_digits enum_text in
  let* domain_lists := read_domain_lists list_text in
  build_global_domains enums domain_lists.

(** ** [json.dump(global_domains, f, indent=2)] *)

Definition hex_digit (d : N) : char := if d <? 10 then 48 + d else 87 + d.

(** [format(n, '04x')] for [n] below 65536. *)
Definition hex4 (n : N) : str :=
  [hex_digit (n / 4096 mod 16); hex_digit (n / 256 mod 16);
   hex_digit (n / 16 mod 16); hex_digit (n mod 16)].

Definition escape_u (n : N) : str := py "\u" ++ hex4 n.

(** The replacement of one character under [ensure_ascii]. *)
Definition escape_char (c : char) : str :=
  if c =? 92 then py "\\"
  else if c =? 34 then [92; dq]
  else if c =? 8 then py "\b"
  else if c =? 12 then py "\f"
  else if c =? 10 then py "\n"
  else if c =? 13 then py "\r"
  else if c =? 9 then py "\t"
  else if in_range 32 126 c then [c]
  else if c <? 65536 then escape_u c
  else
    let n := c - 65536 in
    escape_u (N.lor 55296 (N.land (N.shiftr n 10) 1023))
    ++ escape_u (N.lor 56320 (N.land n 1023)).

Definition encode_str (s : str) : str :=
  dq :: concat (escape_char <$> s) ++ [dq].

(** The integers of the output come out of [int], so that their digits are
    within the interpreter's limit when they are written. *)
Definition encode_int (z : Z) : str :=
  py (NilZero.string_of_int (Z.to_int z)).

Definition newline_indent (level : nat) : str :=
  10 :: concat (replicate level (py "  ")).

Fixpoint join (sep : str) (items : list str) : str :=
  match items with
  | [] => []
  | [x] => x
  | x :: items' => x ++ sep ++ join sep items'
  end.

(** A list or a dict whose encoded items are [items], at nesting depth
    [level]. *)
Definition encode_seq (opening closing : str) (level : nat) (items : list str)
  : str :=
  match items with
  | [] => opening ++ closing
  | _ :: _ =>
      opening ++ newline_indent (S level)
      ++ join (py "," ++ newline_indent (S level)) items
      ++ newline_indent level ++ closing
  end.

Definition encode_val (level : nat) (v : pyval) : str :=
  match v with
  | PInt z => encode_int z
  | PList l => encode_seq (py "[") (py "]") level (encode_str <$> l)
  | PBool b => if b then py "true" else py "false"
  end.

Definition encode_dict (level : nat) (d : odict pyval) : str :=
  encode_seq (py "{") (py "}") level
    ((fun kv => encode_str (fst kv) ++ py ": " ++ encode_val (S level) (snd kv))
       <$> d).

Definition json_dumps (global_domains : list (odict pyval)) : str :=
  encode_seq (py "[") (py "]") 0 (encode_dict 1 <$> global_domains).

(** ** The script *)

(** What the run is given: the argument vector, the remote repository
    ([urlopen(url)] read and decoded, [None] when any of the three steps
    raises), the paths that can be opened for writing, what becomes of a
    write to an opened file ([write_error path] is [Some n] when the write,
    or the flush that closes the file, fails with [n] characters of the
    text in the file, the whole text if it is shorter, and [None] when it
    does not fail) and the interpreter's limit on the digits of a converted
    integer. *)
Record env : Type := {
  sys_argv : list str;
  urlopen : str -> option str;
  writable : str -> bool;
  write_error : str -> option nat;
  int_max_str_digits : nat
}.

(** What the run changes: the standard output and the files, a file being
    known by the path it is opened with. *)
Record world : Type := {
  stdout : str;
  files : gmap str str
}.

Definition M (A : Type) : Type := world -> result A * world.

Definition ret {A} (a : A) : M A := fun w => (Ok a, w).

Definition bind {A B} (c : M A) (f : A -> M B) : M B :=
  fun w =>
    match c w with
    | (Ok a, w') => f a w'
    | (Raise e, w') => (Raise e, w')
    end.

Definition lift {A} (r : result A) : M A := fun w => (r, w).

Notation "'let!' x ':=' c 'in' k" := (bind c (fun x => k))
  (at level 10, x name, c at level 100, k at level 200).
Notation "c ;; k" := (bind c (fun _ => k))
  (at level 100, k at level 200, right associativity).

Definition print (s : str) : M unit :=
  fun w => (Ok tt, {| stdout := stdout w ++ s ++ [10]; files := files w |}).

Definition sys_exit {A} (code : Z) : M A :=
  lift (Raise (SystemExit code)).

(** [l[i]] *)
Definition index (l : list str) (i : nat) : result str :=
  match l !! i with
  | Some x => Ok x
  | None => Raise IndexError
  end.

Definition fetch (e : env) (url : str) : M str :=
  match urlopen e url with
  | Some text => ret text
  | None => lift (Raise (URLError url))
  end.

(** [with open(file=path, mode='w', encoding='utf-8') as f:] followed by
    the write of [text] to [f].  When the file cannot be opened, [OSError]
    is raised and the file is as it was.  Opening it empties it; the text
    then goes to it piece by piece, and a write that fails raises [OSError]
    with the start of the text in the file. *)
Definition write_file (e : env) (path text : str) : M unit :=
  fun w =>
    if writable e path then
      match write_error e path with
      | None =>
          (Ok tt,
           {| stdout := stdout w; files := <[path := text]> (files w) |})
      | Some n =>
          (Raise (OSError path),
           {| stdout := stdout w;
              files := <[path := take n text]> (files w) |})
      end
    else (Raise (OSError path), w).

Definition usage_ok (n : nat) : bool := ((2 <=? n) && (n <=? 3))%nat.

(** The revision to fetch from: [GIT_REF]. *)
Definition GIT_REF (argv : list str) : result str :=
  if (length argv =? 2)%nat then Ok (py "main") else index argv 2.

Definition BASE_URL (git_ref : str) : str :=
  py "https://github.com/bitwarden/server/raw/" ++ git_ref.

Definition ENUMS_URL (git_ref : str) : str :=
  BASE_URL git_ref ++ py "/src/Core/Enums/GlobalEquivalentDomainsType.cs".

Definition DOMAIN_LISTS_URL (git_ref : str) : str :=
  BASE_URL git_ref ++ py "/src/Core/Utilities/StaticStore.cs".

Definition main (e : env) : M unit :=
  let argv := sys_argv e in
  (if negb (usage_ok (length argv)) then
     let! argv0 := lift (index argv 0) in
     print (py "usage: " ++ argv0 ++ py " <OUTPUT-FILE> [GIT-REF]") ;;
     print [] ;;
     print (py "This script generates a global equivalent domains JSON file from") ;;
     print (py "the upstream Bitwarden source repo.") ;;
     sys_exit 1
   else ret tt) ;;
  let! OUTPUT_FILE := lift (index argv 1) in
  let! git_ref := lift (GIT_REF argv) in
  let! text := fetch e (ENUMS_URL git_ref) in
  let! enums := lift (read_enums (int_max_str_digits e) text) in
  let! text := fetch e (DOMAIN_LISTS_URL git_ref) in
  let! domain_lists := lift (read_domain_lists text) in
  let! global_domains := lift (build_global_domains enums domain_lists) in
  write_file e OUTPUT_FILE (json_dumps global_domains).

(** The exit status of the process: 0 on completion, the code of an
    uncaught [SystemExit], 1 for any other uncaught exception. *)
Definition exit_status (r : result unit) : Z :=
  match r with
  | Ok _ => 0
  | Raise (SystemExit code) => code
  | Raise _ => 1
  end.

(** ** Vocabulary of the statements *)

(** Whether [s] starts with a character of the class [p]. *)
Definition head_in (p : char -> bool) (s : str) : bool :=
  match s with
  | c :: _ => p c
  | [] => false
  end.

(** What each pattern does on a line, as one left-to-right scan without
    backtracking: the texts of group 1 and group 2. *)
Definition scan_enum (ln : str) : option (str * str) :=
  let s1 := drop_while is_space ln in
  match take_while is_word s1 with
  | [] => None
  | name =>
      match skip (py "=") (drop_while is_space (drop_while is_word s1)) with
      | None => None
      | Some s2 =>
          match take_while is_digit (drop_while is_space s2) with
          | [] => None
          | digits => Some (name, digits)
          end
      end
  end.

Definition scan_domain_list (ln : str) : option (str * str) :=
  match skip (py "GlobalDomains.Add(GlobalEquivalentDomainsType.")
          (drop_while is_space ln) with
  | None => None
  | Some s1 =>
  match take_while is_word s1 with
  | [] => None
  | name =>
  match skip (py ",") (drop_while is_space (drop_while is_word s1)) with
  | None => None
  | Some s2 =>
  match skip (py "new List<string>") (drop_while is_space s2) with
  | None => None
  | Some s3 =>
  match skip (py "{") (drop_while is_space s3) with
  | None => None
  | Some s4 =>
  match take_while not_rbrace s4 with
  | [] => None
  | span =>
  match skip (py "});") (drop_while not_rbrace s4) with
  | None => None
  | Some _ => Some (name, span)
  end end end end end end end.

(** The groups of a match of either pattern. *)
Definition two_groups (p : str * str) : groups :=
  [(2%nat, snd p); (1%nat, fst p)].

(** [rejects cs r]: [r] matches no input that starts in the class [cs]. *)
Definition rejects (cs : char -> bool) (r : re) : Prop :=
  forall k c t g, cs c = true -> run r k (c :: t) g = None.

(** The text an enum line starts with: blanks, a name, blanks, the equals
    sign, blanks, a decimal integer. *)
Inductive enum_prefix (name digits : str) : str -> Prop :=
  | enum_prefix_intro (ws ws1 ws2 : str) :
      forallb is_space ws = true ->
      name <> [] -> forallb is_word name = true ->
      forallb is_space ws1 = true ->
      forallb is_space ws2 = true ->
      digits <> [] -> forallb is_digit digits = true ->
      enum_prefix name digits
        (ws ++ name ++ ws1 ++ py "=" ++ ws2 ++ digits).

(** An enum line: such a text, then anything that does not continue the
    integer. *)
Definition enum_line (name digits ln : str) : Prop :=
  exists prefix rest,
    ln = prefix ++ rest /\ enum_prefix name digits prefix
    /\ head_in is_digit rest = false.

(** The text a domain list line starts with, up to the semicolon. *)
Inductive domain_list_prefix (name span : str) : str -> Prop :=
  | domain_list_prefix_intro (ws ws1 ws2 ws3 : str) :
      forallb is_space ws = true ->
      name <> [] -> forallb is_word name = true ->
      forallb is_space ws1 = true ->
      forallb is_space ws2 = true ->
      forallb is_space ws3 = true ->
      span <> [] -> forallb not_rbrace span = true ->
      domain_list_prefix name span
        (ws ++ py "GlobalDomains.Add(GlobalEquivalentDomainsType." ++ name
         ++ ws1 ++ py "," ++ ws2 ++ py "new List<string>" ++ ws3 ++ py "{"
         ++ span ++ py "});").

Definition domain_list_line (name span ln : str) : Prop :=
  exists prefix rest, ln = prefix ++ rest /\ domain_list_prefix name span prefix.

(** The entry a line contributes to each mapping, if any. *)
Definition enum_entry (ln : str) : option (str * Z) :=
  match scan_enum ln with
  | Some (name, digits) => Some (name, decimal digits)
  | None => None
  end.

Definition domain_list_entry (ln : str) : option (str * list str) :=
  match scan_domain_list ln with
  | Some (name, span) => Some (name, strip strip_chars <$> split 44 span)
  | None => None
  end.

(** The value of the last pair with key [k]. *)
Fixpoint last_value {V} (k : str) (l : list (str * V)) : option V :=
  match l with
  | [] => None
  | (k', v) :: l' =>
      match last_value k l' with
      | Some v' => Some v'
      | None => if decide (k' = k) then Some v else None
      end
  end.

(** The keys of [l], each at the place of its first occurrence. *)
Definition first_occurrences (l : list str) : list str :=
  foldl (fun seen k => if decide (k ∈ seen) then seen else seen ++ [k]) [] l.

(** An output record. *)
Definition record (type : Z) (domains : list str) : odict pyval :=
  [(py "type", PInt type); (py "domains", PList domains);
   (py "excluded", PBool false)].

(** The four lines of the usage message. *)
Definition usage_message (argv0 : str) : str :=
  py "usage: " ++ argv0 ++ py " <OUTPUT-FILE> [GIT-REF]" ++ [10]
  ++ [10]
  ++ py "This script generates a global equivalent domains JSON file from"
  ++ [10]
  ++ py "the upstream Bitwarden source repo." ++ [10].

(** Whether the interpreter converts a literal of [n] digits. *)
Definition within_limit (max_str_digits n : nat) : bool :=
  ((max_str_digits =? 0) || (n <=? max_str_digits))%nat.

(** Whether the integer of the line, if it has one, is converted. *)
Definition convertible (max_str_digits : nat) (ln : str) : bool :=
  match scan_enum ln with
  | Some (_, digits) => within_limit max_str_digits (length digits)
  | None => true
  end.

(** One turn of each reading loop, as a function. *)
Definition enums_step (enums : gmap (list N) Z) (ln : list N)
  : gmap (list N) Z :=
  match enum_entry ln with
  | Some (name, value) => <[name := value]> enums
  | None => enums
  end.

Definition domain_lists_step (domain_lists : list (list N * list (list N)))
  (ln : list N) : list (list N * list (list N)) :=
  match domain_list_entry ln with
  | Some (name, domains) => od_set name domains domain_lists
  | None => domain_lists
  end.

(** [d] is [frag] without its leading and trailing characters of [chars]. *)
Definition stripped (chars frag d : str) : Prop :=
  exists l r,
    frag = l ++ d ++ r
    /\ forallb (mem chars) l = true /\ forallb (mem chars) r = true
    /\ head_in (mem chars) d = false /\ head_in (mem chars) (rev d) = false.

(** ** Scenarios *)

(** A line of the list text, written the way the upstream file writes it. *)
Definition list_line (name : str) (domains : list str) : str :=
  py "GlobalDomains.Add(GlobalEquivalentDomainsType." ++ name
  ++ py ", new List<string> { " ++ join (py ", ") (quoted <$> domains)
  ++ py " });".

Definition scenario_enum_text : str :=
  py "Foo = 0," ++ [10] ++ py "Bar = 1,".

Definition scenario_list_text : str :=
  list_line (py "Foo") [py "x.com"; py "y.com"] ++ [10]
  ++ list_line (py "Bar") [py "z.com"].

(** A run on the main branch against the two given texts. *)
Definition scenario_env (argv : list str) (enum_text list_text : str) : env :=
  {| sys_argv := argv;
     urlopen := fun url =>
       if decide (url = ENUMS_URL (py "main")) then Some enum_text
       else if decide (url = DOMAIN_LISTS_URL (py "main")) then Some list_text
       else None;
     writable := fun _ => true;
     write_error := fun _ => None;
     int_max_str_digits := 4300 |}.

Definition empty_world : world := {| stdout := []; files := ∅ |}.

(** Three groups met in the order B, A, C, with codes that order them
    otherwise. *)
Definition order_list_text : str :=
  list_line (py "B") [py "b.com"] ++ [10]
  ++ list_line (py "A") [py "a.com"] ++ [10]
  ++ list_line (py "C") [py "c.com"].

Definition order_enums : gmap str Z :=
  <[py "B" := 2%Z]> (<[py "A" := 0%Z]> (<[py "C" := 1%Z]> ∅)).

(** Texts where Foo occurs twice, around Bar. *)
Definition duplicate_enum_text : str :=
  py "Foo = 0," ++ [10] ++ py "Bar = 1," ++ [10] ++ py "Foo = 7,".

Definition duplicate_list_text : str :=
  list_line (py "Foo") [py "x.com"] ++ [10]
  ++ list_line (py "Bar") [py "z.com"] ++ [10]
  ++ list_line (py "Foo") [py "y.com"; py "w.com"].

(** An enum line whose integer has 4301 digits. *)
Definition long_enum_line : str := py "A = " ++ replicate 4301 49.

(** ** Vocabulary of the further properties *)

(** The revision the script fetches from, given the arguments that follow
    the output file. *)
Definition revision (rest : list str) : str := default (py "main") (head rest).

(** The world after the output file has been written. *)
Definition written (w : world) (out : str)
  (global_domains : list (odict pyval)) : world :=
  {| stdout := stdout w;
     files := <[out := json_dumps global_domains]> (files w) |}.

(** A run under the default limit, against a remote repository given as
    the texts behind its URLs. *)
Definition scenario (argv : list str) (remote : list (str * str))
  (can_write : bool) : env :=
  {| sys_argv := argv;
     urlopen := fun url => od_get url remote;
     writable := fun _ => can_write;
     write_error := fun _ => None;
     int_max_str_digits := 4300 |}.

(** The same run when the write fails with [n] characters in the file. *)
Definition failing_write (e : env) (n : nat) : env :=
  {| sys_argv := sys_argv e;
     urlopen := urlopen e;
     writable := writable e;
     write_error := fun _ => Some n;
     int_max_str_digits := int_max_str_digits e |}.

(** The text of several lines. *)
Definition text_of_lines (lines : list str) : str := join [10] lines.

(** The JSON text of the end-to-end scenario. *)
Definition scenario_json : str :=
  text_of_lines
    [py "[";
     py "  {";
     py "    " ++ quoted (py "type") ++ py ": 0,";
     py "    " ++ quoted (py "domains") ++ py ": [";
     py "      " ++ quoted (py "x.com") ++ py ",";
     py "      " ++ quoted (py "y.com");
     py "    ],";
     py "    " ++ quoted (py "excluded") ++ py ": false";
     py "  },";
     py "  {";
     py "    " ++ quoted (py "type") ++ py ": 1,";
     py "    " ++ quoted (py "domains") ++ py ": [";
     py "      " ++ quoted (py "z.com");
     py "    ],";
     py "    " ++ quoted (py "excluded") ++ py ": false";
     py "  }";
     py "]"].

(** The two texts of the end-to-end scenario, on the branch [ref]. *)
Definition scenario_remote (ref : str) : list (str * str) :=
  [(ENUMS_URL ref, scenario_enum_text);
   (DOMAIN_LISTS_URL ref, scenario_list_text)].

Definition scenario_records : list (odict pyval) :=
  [record 0 [py "x.com"; py "y.com"]; record 1 [py "z.com"]].

(** A printable ASCII character or a newline. *)
Definition is_plain (c : char) : bool := (c =? 10) || in_range 32 126 c.

(** A name as both patterns capture it. *)
Definition is_name (name : str) : Prop :=
  name <> [] /\ forallb is_word name = true.

(** A domain as the list loop stores it: no comma, no closing brace, and
    neither a space nor a double quote at either end. *)
Definition is_clean (d : str) : Prop :=
  forallb (fun c => negb (c =? 44) && negb (c =? 125)) d = true
  /\ head_in (mem strip_chars) d = false
  /\ head_in (mem strip_chars) (rev d) = false.

(** An ordinary character of a JSON string: printable ASCII, neither the
    double quote nor the backslash. *)
Definition is_verbatim (c : char) : bool :=
  in_range 32 126 c && negb (c =? 34) && negb (c =? 92).

(** ** The layout of the JSON text *)

(** The items of an array or an object, a comma after each but the last. *)
Fixpoint with_commas (items : list str) : list str :=
  match items with
  | [] => []
  | [x] => [x]
  | x :: items' => (x ++ py ",") :: with_commas items'
  end.

(** The lines of the [domains] member of a record. *)
Definition domains_lines (domains : list str) : list str :=
  match domains with
  | [] => [py "    " ++ quoted (py "domains") ++ py ": [],"]
  | _ :: _ =>
      [py "    " ++ quoted (py "domains") ++ py ": ["]
      ++ ((fun d => py "      " ++ d) <$> with_commas (encode_str <$> domains))
      ++ [py "    ],"]
  end.

(** The text of a record: its lines, each record two spaces in. *)
Definition record_text (rec : Z * list str) : str :=
  text_of_lines
    ([py "  {";
      py "    " ++ quoted (py "type") ++ py ": " ++ encode_int (fst rec)
      ++ py ","]
     ++ domains_lines (snd rec)
     ++ [py "    " ++ quoted (py "excluded") ++ py ": false";
         py "  }"]).

(** The whole text: the records between brackets, one after the other. *)
Definition document (recs : list (Z * list str)) : str :=
  match recs with
  | [] => py "[]"
  | _ :: _ =>
      text_of_lines ([py "["] ++ with_commas (record_text <$> recs) ++ [py "]"])
  end.

(** * Verification *)

(** ** Character classes *)

Ltac charclass :=
  unfold is_space, is_word, is_digit, not_rbrace, in_range in *;
  repeat rewrite ?orb_true_iff, ?andb_true_iff, ?orb_false_iff,
    ?andb_false_iff, ?negb_true_iff, ?negb_false_iff, ?N.eqb_eq, ?N.eqb_neq,
    ?N.leb_le, ?N.leb_gt in *;
  lia.

Lemma space_not_word c : is_space c = true -> is_word c = false.
Proof. intros H. charclass. Qed.

Lemma space_not_digit c : is_space c = true -> is_digit c = false.
Proof. intros H. charclass. Qed.

Lemma word_not_space c : is_word c = true -> is_space c = false.
Proof. intros H. charclass. Qed.

Lemma digit_is_word c : is_digit c = true -> is_word c = true.
Proof. intros H. charclass. Qed.

(** A white-space character is no visible ASCII character. *)
Lemma space_not_visible c x :
  is_space c = true -> in_range 33 126 x = true -> (c =? x) = false.
Proof. intros H1 H2. charclass. Qed.

Lemma word_not_punct c x :
  is_word c = true -> is_word x = false -> (c =? x) = false.
Proof.
  intros H1 H2. apply N.eqb_neq. intros ->. congruence.
Qed.

Lemma not_rbrace_neq c : not_rbrace c = true -> (c =? 125) = false.
Proof. intros H. charclass. Qed.

(** ** Scanning a run of characters *)

Section Scanning.
Variable p : char -> bool.

Lemma take_drop_while s : take_while p s ++ drop_while p s = s.
Proof.
  induction s as [|c s IH]; simpl; [done|].
  destruct (p c); simpl; [by rewrite IH | done].
Qed.

Lemma take_while_all s : forallb p (take_while p s) = true.
Proof.
  induction s as [|c s IH]; simpl; [done|].
  destruct (p c) eqn:Hc; simpl; [by rewrite Hc | done].
Qed.

Lemma head_drop_while s : head_in p (drop_while p s) = false.
Proof.
  induction s as [|c s IH]; simpl; [done|].
  destruct (p c) eqn:Hc; simpl; done.
Qed.

Lemma take_while_app run rest :
  forallb p run = true -> head_in p rest = false ->
  take_while p (run ++ rest) = run.
Proof.
  intros Hrun Hrest. induction run as [|c run IH]; simpl in *.
  - destruct rest as [|x rest]; simpl in *; [done | by rewrite Hrest].
  - apply andb_true_iff in Hrun as [-> Hrun]. by rewrite IH.
Qed.

Lemma drop_while_app run rest :
  forallb p run = true -> head_in p rest = false ->
  drop_while p (run ++ rest) = rest.
Proof.
  intros Hrun Hrest. induction run as [|c run IH]; simpl in *.
  - destruct rest as [|x rest]; simpl in *; [done | by rewrite Hrest].
  - apply andb_true_iff in Hrun as [-> Hrun]. by rewrite IH.
Qed.

Lemma length_drop_while s : (length (drop_while p s) <= length s)%nat.
Proof.
  induction s as [|c s IH]; simpl; [done|].
  destruct (p c); simpl; lia.
Qed.

(** The text a group records is the run that was consumed. *)
Lemma take_consumed s :
  take (length s - length (drop_while p s)) s = take_while p s.
Proof.
  rewrite <- (take_drop_while s) at 1 3.
  rewrite length_app.
  replace (length (take_while p s) + length (drop_while p s)
           - length (drop_while p s))%nat
    with (length (take_while p s)) by lia.
  by rewrite take_app_length.
Qed.
End Scanning.

Lemma skip_app lit s : skip lit (lit ++ s) = Some s.
Proof.
  induction lit as [|c lit IH]; simpl; [by destruct s|].
  by rewrite N.eqb_refl.
Qed.

Lemma skip_Some lit s s' : skip lit s = Some s' -> s = lit ++ s'.
Proof.
  revert s. induction lit as [|c lit IH]; intros s H; simpl in *.
  - destruct s; congruence.
  - destruct s as [|x s]; [done|].
    destruct (x =? c) eqn:E; [|done].
    apply N.eqb_eq in E as ->. by rewrite (IH _ H).
Qed.

(** ** The matcher on the shapes the two patterns use *)

Section Greedy.
Context {A : Type}.
Variable cs : char -> bool.
Variable k : str -> option A.

(** When the rest of the pattern cannot start with a character of the
    class, giving characters back never helps: the repetition takes the
    whole run. *)
Lemma greedy_commit s :
  (forall c t, cs c = true -> k (c :: t) = None) ->
  greedy cs k s = k (drop_while cs s).
Proof.
  intros Hk. induction s as [|c s IH]; simpl; [done|].
  destruct (cs c) eqn:Hc; [|done].
  rewrite IH. destruct (k (drop_while cs s)) eqn:E; [done|].
  by apply Hk.
Qed.

(** When the rest of the pattern accepts after the whole run, that is the
    match. *)
Lemma greedy_longest s :
  is_Some (k (drop_while cs s)) ->
  greedy cs k s = k (drop_while cs s).
Proof.
  induction s as [|c s IH]; simpl; [done|].
  destruct (cs c) eqn:Hc; [|done].
  intros Hs. rewrite (IH Hs). by destruct Hs as [r ->].
Qed.
End Greedy.

Lemma rejects_Seq cs a b : rejects cs a -> rejects cs (a +++ b).
Proof. intros H k c t g Hc. simpl. by apply H. Qed.

Lemma rejects_Str cs x lit :
  (forall c, cs c = true -> (c =? x) = false) -> rejects cs (Str (x :: lit)).
Proof. intros H k c t g Hc. simpl. by rewrite (H c Hc). Qed.

Lemma rejects_Plus cs cs' :
  (forall c, cs c = true -> cs' c = false) -> rejects cs (Plus cs').
Proof. intros H k c t g Hc. simpl. by rewrite (H c Hc). Qed.

Lemma rejects_Group cs n a : rejects cs a -> rejects cs (Group n a).
Proof. intros H k c t g Hc. simpl. by apply H. Qed.

Lemma rejects_Star cs cs' b :
  (forall c, cs c = true -> cs' c = false) -> rejects cs b ->
  rejects cs (Star cs' +++ b).
Proof.
  intros H Hb k c t g Hc. simpl. rewrite (H c Hc). by apply Hb.
Qed.

Lemma run_Str lit b k s g :
  run (Str lit +++ b) k s g =
  match skip lit s with
  | Some s' => run b k s' g
  | None => None
  end.
Proof. reflexivity. Qed.

Lemma run_Star cs b k s g :
  rejects cs b -> run (Star cs +++ b) k s g = run b k (drop_while cs s) g.
Proof.
  intros H. simpl.
  apply (greedy_commit cs (fun s' => run b k s' g)).
  intros c t Hc. by apply H.
Qed.

Lemma run_Group_Plus n cs b k s g :
  rejects cs b ->
  run (Group n (Plus cs) +++ b) k s g =
  match take_while cs s with
  | [] => None
  | name => run b k (drop_while cs s) ((n, name) :: g)
  end.
Proof.
  intros H. destruct s as [|x s]; [done|].
  cbn [run take_while drop_while]. destruct (cs x) eqn:Hx; [|done].
  rewrite (greedy_commit cs
    (fun s' => run b k s' ((n, take (length (x :: s) - length s') (x :: s)) :: g))).
  - pose proof (take_consumed cs (x :: s)) as E. simpl drop_while in E.
    simpl take_while in E. rewrite Hx in E. by rewrite E.
  - intros c t Hc. by apply H.
Qed.

Lemma run_Group_Plus_end n cs s g :
  run (Group n (Plus cs)) (fun _ g' => Some g') s g =
  match take_while cs s with
  | [] => None
  | digits => Some ((n, digits) :: g)
  end.
Proof.
  destruct s as [|x s]; [done|].
  cbn [run take_while]. destruct (cs x) eqn:Hx; [|done].
  rewrite (greedy_longest cs
    (fun s' => Some ((n, take (length (x :: s) - length s') (x :: s)) :: g)));
    [|done].
  pose proof (take_consumed cs (x :: s)) as E. simpl drop_while in E.
  simpl take_while in E. rewrite Hx in E. by rewrite E.
Qed.

Lemma run_Str_end lit s g :
  run (Str lit) (fun _ g' => Some g') s g =
  match skip lit s with
  | Some _ => Some g
  | None => None
  end.
Proof. reflexivity. Qed.

(** ** The two patterns as scans *)

Lemma rejects_space_visible x lit b :
  in_range 33 126 x = true -> rejects is_space (Str (x :: lit) +++ b).
Proof.
  intros Hx. apply rejects_Seq, rejects_Str.
  intros c Hc. by apply space_not_visible.
Qed.

Lemma rejects_word_punct cs x lit b :
  (forall c, cs c = true -> is_space c = false) ->
  (forall c, cs c = true -> (c =? x) = false) ->
  rejects cs (Star is_space +++ Str (x :: lit) +++ b).
Proof.
  intros Hs Hx. apply rejects_Star; [done|].
  by apply rejects_Seq, rejects_Str.
Qed.

Theorem ENUM_RE_scan ln : re_match ENUM_RE ln = two_groups <$> scan_enum ln.
Proof.
  unfold re_match, ENUM_RE, scan_enum.
  rewrite run_Star
    by (apply rejects_Seq, rejects_Group, rejects_Plus, space_not_word).
  rewrite run_Group_Plus.
  2:{ apply rejects_word_punct; [apply word_not_space|].
      intros c Hc. by apply word_not_punct. }
  destruct (take_while is_word _) as [|n name]; [done|].
  rewrite run_Star by (by apply rejects_space_visible).
  rewrite run_Str. destruct (skip _ _) as [s2|]; [|done].
  rewrite run_Star by (apply rejects_Group, rejects_Plus, space_not_digit).
  rewrite run_Group_Plus_end. by destruct (take_while is_digit _).
Qed.

Theorem DOMAIN_LIST_RE_scan ln :
  re_match DOMAIN_LIST_RE ln = two_groups <$> scan_domain_list ln.
Proof.
  unfold re_match, DOMAIN_LIST_RE, scan_domain_list.
  rewrite run_Star by (by apply rejects_space_visible).
  rewrite run_Str. destruct (skip _ _) as [s1|]; [|done].
  rewrite run_Group_Plus.
  2:{ apply rejects_word_punct; [apply word_not_space|].
      intros c Hc. by apply word_not_punct. }
  destruct (take_while is_word _) as [|n name]; [done|].
  rewrite run_Star by (by apply rejects_space_visible).
  rewrite run_Str. destruct (skip _ _) as [s2|]; [|done].
  rewrite run_Star by (by apply rejects_space_visible).
  rewrite run_Str. destruct (skip _ _) as [s3|]; [|done].
  rewrite run_Star by (by apply rejects_space_visible).
  rewrite run_Str. destruct (skip _ _) as [s4|]; [|done].
  rewrite run_Group_Plus by (apply rejects_Str, not_rbrace_neq).
  destruct (take_while not_rbrace _) as [|d span]; [done|].
  rewrite run_Str_end. by destruct (skip _ _).
Qed.

(** ** Lines of the expected shape *)

Lemma head_in_app_run p q run rest :
  run <> [] -> forallb q run = true ->
  (forall c, q c = true -> p c = false) ->
  head_in p (run ++ rest) = false.
Proof.
  intros Hne Hrun Hpq. destruct run as [|c run]; [done|]. simpl in *.
  apply andb_true_iff in Hrun as [Hc _]. by apply Hpq.
Qed.

Lemma head_in_app_skip p q run rest :
  forallb q run = true ->
  (forall c, q c = true -> p c = false) ->
  head_in p rest = false ->
  head_in p (run ++ rest) = false.
Proof.
  intros Hrun Hpq Hrest. destruct run as [|c run]; [done|]. simpl in *.
  apply andb_true_iff in Hrun as [Hc _]. by apply Hpq.
Qed.

Lemma digit_not_space c : is_digit c = true -> is_space c = false.
Proof. intros H. charclass. Qed.

Lemma scan_enum_prefix name digits prefix rest :
  enum_prefix name digits prefix -> head_in is_digit rest = false ->
  scan_enum (prefix ++ rest) = Some (name, digits).
Proof.
  intros [ws ws1 ws2 Hws Hname Hword Hws1 Hws2 Hdigits Hdig] Hrest.
  unfold scan_enum. rewrite <- !app_assoc.
  rewrite (drop_while_app is_space ws); [|done|].
  2:{ apply (head_in_app_run _ is_word); [done | done |].
      apply word_not_space. }
  assert (head_in is_word (ws1 ++ py "=" ++ ws2 ++ digits ++ rest) = false)
    as Hafter.
  { apply (head_in_app_skip _ is_space); [done | | done].
    apply space_not_word. }
  rewrite (take_while_app is_word name), (drop_while_app is_word name) by done.
  destruct name as [|c name]; [done|].
  rewrite (drop_while_app is_space ws1) by done.
  rewrite skip_app.
  rewrite (drop_while_app is_space ws2); [|done|].
  2:{ apply (head_in_app_run _ is_digit); [done | done |].
      apply digit_not_space. }
  rewrite (take_while_app is_digit digits) by done.
  by destruct digits.
Qed.

Lemma scan_enum_line ln name digits :
  scan_enum ln = Some (name, digits) -> enum_line name digits ln.
Proof.
  unfold scan_enum. set (s1 := drop_while is_space ln).
  destruct (take_while is_word s1) as [|c nm] eqn:En; [done|].
  destruct (skip _ _) as [s2|] eqn:Es; [|done].
  destruct (take_while is_digit _) as [|d ds] eqn:Ed; [done|].
  intros [= <- <-]. apply skip_Some in Es.
  exists (take_while is_space ln ++ (c :: nm)
          ++ take_while is_space (drop_while is_word s1) ++ py "="
          ++ take_while is_space s2 ++ (d :: ds)),
    (drop_while is_digit (drop_while is_space s2)).
  split; [|split].
  - rewrite <- !app_assoc, <- Ed, !take_drop_while, <- Es, take_drop_while.
    rewrite <- En, take_drop_while. unfold s1. by rewrite take_drop_while.
  - constructor; rewrite <- ?En, <- ?Ed; try apply take_while_all.
    + by rewrite En.
    + by rewrite Ed.
  - apply head_drop_while.
Qed.

Theorem scan_enum_iff ln name digits :
  scan_enum ln = Some (name, digits) <-> enum_line name digits ln.
Proof.
  split; [apply scan_enum_line|].
  intros (prefix & rest & -> & Hp & Hr). by apply scan_enum_prefix.
Qed.

Lemma scan_domain_list_prefix name span prefix rest :
  domain_list_prefix name span prefix ->
  scan_domain_list (prefix ++ rest) = Some (name, span).
Proof.
  intros [ws ws1 ws2 ws3 Hws Hname Hword Hws1 Hws2 Hws3 Hspan Hnb].
  unfold scan_domain_list. rewrite <- !app_assoc.
  rewrite (drop_while_app is_space ws), skip_app by done.
  assert (head_in is_word
            (ws1 ++ py "," ++ ws2 ++ py "new List<string>" ++ ws3 ++ py "{"
             ++ span ++ py "});" ++ rest) = false) as Hafter.
  { apply (head_in_app_skip _ is_space); [done | | done].
    apply space_not_word. }
  rewrite (take_while_app is_word name), (drop_while_app is_word name) by done.
  destruct name as [|c name]; [done|].
  rewrite (drop_while_app is_space ws1), skip_app by done.
  rewrite (drop_while_app is_space ws2), skip_app by done.
  rewrite (drop_while_app is_space ws3), skip_app by done.
  rewrite (take_while_app not_rbrace span),
    (drop_while_app not_rbrace span) by done.
  destruct span as [|d span]; [done|].
  by rewrite skip_app.
Qed.

Lemma scan_domain_list_line ln name span :
  scan_domain_list ln = Some (name, span) -> domain_list_line name span ln.
Proof.
  unfold scan_domain_list.
  destruct (skip _ (drop_while is_space ln)) as [s1|] eqn:E1; [|done].
  destruct (take_while is_word s1) as [|c nm] eqn:En; [done|].
  destruct (skip _ (drop_while is_space (drop_while is_word s1)))
    as [s2|] eqn:E2; [|done].
  destruct (skip _ (drop_while is_space s2)) as [s3|] eqn:E3; [|done].
  destruct (skip _ (drop_while is_space s3)) as [s4|] eqn:E4; [|done].
  destruct (take_while not_rbrace s4) as [|d ds] eqn:Ed; [done|].
  destruct (skip _ (drop_while not_rbrace s4)) as [s5|] eqn:E5; [|done].
  intros [= <- <-].
  apply skip_Some in E1, E2, E3, E4, E5.
  exists (take_while is_space ln
          ++ py "GlobalDomains.Add(GlobalEquivalentDomainsType." ++ (c :: nm)
          ++ take_while is_space (drop_while is_word s1) ++ py ","
          ++ take_while is_space s2 ++ py "new List<string>"
          ++ take_while is_space s3 ++ py "{" ++ (d :: ds) ++ py "});"), s5.
  split.
  - rewrite <- !app_assoc, <- E5, <- Ed, take_drop_while, <- E4.
    rewrite take_drop_while, <- E3, take_drop_while, <- E2, take_drop_while.
    by rewrite <- En, take_drop_while, <- E1, take_drop_while.
  - constructor; rewrite <- ?En, <- ?Ed; try apply take_while_all.
    + by rewrite En.
    + by rewrite Ed.
Qed.

Theorem scan_domain_list_iff ln name span :
  scan_domain_list ln = Some (name, span) <-> domain_list_line name span ln.
Proof.
  split; [apply scan_domain_list_line|].
  intros (prefix & rest & -> & Hp). by apply scan_domain_list_prefix.
Qed.

(** ** The loop bodies *)

Lemma for_each_foldl {A S} (body : S -> A -> result S) (f : S -> A -> S) xs s :
  (forall s x, body s x = Ok (f s x)) ->
  for_each body xs s = Ok (foldl f s xs).
Proof.
  intros Hb. revert s. induction xs as [|x xs IH]; intros s; simpl; [done|].
  rewrite Hb. simpl. apply IH.
Qed.

Lemma within_limit_spec (max_str_digits : nat) n :
  within_limit max_str_digits n
  = negb ((0 <? max_str_digits) && (max_str_digits <? n))%nat.
Proof.
  unfold within_limit.
  destruct (Nat.eqb_spec max_str_digits 0) as [->|Hne]; [done|].
  destruct (Nat.ltb_spec 0 max_str_digits); [|lia].
  destruct (Nat.leb_spec n max_str_digits), (Nat.ltb_spec max_str_digits n);
    simpl; (done || lia).
Qed.

Lemma within_limit_iff (max_str_digits : nat) n :
  within_limit max_str_digits n = true
  <-> (max_str_digits = 0 \/ n <= max_str_digits)%nat.
Proof.
  unfold within_limit. by rewrite orb_true_iff, Nat.eqb_eq, Nat.leb_le.
Qed.

Lemma int_decimal (max_str_digits : nat) digits :
  digits <> [] -> forallb is_digit digits = true ->
  within_limit max_str_digits (length digits) = true ->
  int max_str_digits digits = Ok (decimal digits).
Proof.
  intros Hne Hd Hl. destruct digits as [|d ds]; [done|].
  unfold int. rewrite Hd. rewrite within_limit_spec in Hl.
  by apply negb_true_iff in Hl as ->.
Qed.

Lemma int_over_limit (max_str_digits : nat) digits :
  digits <> [] -> forallb is_digit digits = true ->
  within_limit max_str_digits (length digits) = false ->
  int max_str_digits digits = Raise ValueError.
Proof.
  intros Hne Hd Hl. destruct digits as [|d ds]; [done|].
  unfold int. rewrite Hd. rewrite within_limit_spec in Hl.
  by apply negb_false_iff in Hl as ->.
Qed.

Lemma decimal_snoc s c :
  decimal (s ++ [c]) = (10 * decimal s + digit_value c)%Z.
Proof. unfold decimal. by rewrite fold_left_app. Qed.

Lemma group_1 p : group (two_groups p) 1 = Ok (fst p).
Proof. reflexivity. Qed.

Lemma group_2 p : group (two_groups p) 2 = Ok (snd p).
Proof. reflexivity. Qed.

Lemma enums_body_step (max_str_digits : nat) enums ln :
  convertible max_str_digits ln = true ->
  enums_body max_str_digits enums ln = Ok (enums_step enums ln).
Proof.
  unfold enums_body, enums_step, enum_entry, convertible.
  rewrite ENUM_RE_scan.
  destruct (scan_enum ln) as [[name digits]|] eqn:E; [|done].
  apply scan_enum_line in E as (prefix & rest & _ & Hp & _).
  intros Hl. destruct Hp. simpl. by rewrite int_decimal.
Qed.

Lemma enums_body_over_limit (max_str_digits : nat) enums ln :
  convertible max_str_digits ln = false ->
  enums_body max_str_digits enums ln = Raise ValueError.
Proof.
  unfold enums_body, convertible. rewrite ENUM_RE_scan.
  destruct (scan_enum ln) as [[name digits]|] eqn:E; [|done].
  apply scan_enum_line in E as (prefix & rest & _ & Hp & _).
  intros Hl. destruct Hp. simpl. by rewrite int_over_limit.
Qed.

Lemma convertible_no_limit ln : convertible 0 ln = true.
Proof. unfold convertible. by destruct (scan_enum ln) as [[name digits]|]. Qed.

Lemma domain_lists_body_step domain_lists ln :
  domain_lists_body domain_lists ln = Ok (domain_lists_step domain_lists ln).
Proof.
  unfold domain_lists_body, domain_lists_step, domain_list_entry.
  rewrite DOMAIN_LIST_RE_scan.
  by destruct (scan_domain_list ln) as [[name span]|].
Qed.

Lemma enums_foldl (max_str_digits : nat) (lines : list (list N))
  (enums : gmap (list N) Z) :
  forallb (convertible max_str_digits) lines = true ->
  for_each (enums_body max_str_digits) lines enums
  = Ok (foldl enums_step enums lines).
Proof.
  revert enums. induction lines as [|ln lines IH]; intros enums; [done|].
  cbn [forallb for_each foldl]. intros [Hln Hlines]%andb_true_iff.
  rewrite enums_body_step by done. by apply IH.
Qed.

Lemma enums_over_limit (max_str_digits : nat) (lines : list (list N))
  (enums : gmap (list N) Z) :
  forallb (convertible max_str_digits) lines = false ->
  for_each (enums_body max_str_digits) lines enums = Raise ValueError.
Proof.
  revert enums. induction lines as [|ln lines IH]; intros enums; [done|].
  cbn [forallb for_each]. intros Hl.
  destruct (convertible max_str_digits ln) eqn:Hln.
  - rewrite enums_body_step by done. by apply IH.
  - by rewrite enums_body_over_limit.
Qed.

Lemma read_enums_foldl (max_str_digits : nat) text :
  forallb (convertible max_str_digits) (split 10 text) = true ->
  read_enums max_str_digits text = Ok (foldl enums_step ∅ (split 10 text)).
Proof. apply enums_foldl. Qed.

Lemma read_enums_Ok (max_str_digits : nat) text enums :
  read_enums max_str_digits text = Ok enums ->
  forallb (convertible max_str_digits) (split 10 text) = true
  /\ enums = foldl enums_step ∅ (split 10 text).
Proof.
  unfold read_enums. intros Hr.
  destruct (forallb (convertible max_str_digits) (split 10 text)) eqn:Hl.
  - rewrite enums_foldl in Hr by done. by injection Hr as <-.
  - by rewrite enums_over_limit in Hr.
Qed.

Lemma read_domain_lists_foldl text :
  read_domain_lists text = Ok (foldl domain_lists_step [] (split 10 text)).
Proof. apply for_each_foldl, domain_lists_body_step. Qed.

(** ** [split] and [strip] *)

Lemma split_nonempty sep s : split sep s <> [].
Proof.
  destruct s as [|c s]; simpl; [done|].
  destruct (c =? sep); [done|]. by destruct (split sep s).
Qed.

Lemma join_cons sep x items :
  items <> [] -> join sep (x :: items) = x ++ sep ++ join sep items.
Proof. by destruct items. Qed.

(** The fragments, put together again with the separator, are the text. *)
Lemma split_join sep s : join [sep] (split sep s) = s.
Proof.
  induction s as [|c s IH]; simpl; [done|].
  destruct (c =? sep) eqn:E.
  - apply N.eqb_eq in E as ->.
    rewrite join_cons by apply split_nonempty. simpl. by rewrite IH.
  - pose proof (split_nonempty sep s) as Hne.
    destruct (split sep s) as [|w ws]; [done|].
    destruct ws as [|w' ws]; simpl in *; by rewrite <- IH.
Qed.

(** No fragment holds the separator. *)
Lemma split_no_sep sep s :
  Forall (fun frag => forallb (fun c => negb (c =? sep)) frag = true)
    (split sep s).
Proof.
  induction s as [|c s IH]; simpl; [by constructor|].
  destruct (c =? sep) eqn:E; [by constructor|].
  pose proof (split_nonempty sep s) as Hne.
  destruct (split sep s) as [|w ws]; [done|].
  inversion IH as [|? ? Hw Hws]; subst. constructor; [|done].
  simpl. by rewrite E.
Qed.

Lemma drop_while_snoc p s x :
  p x = false -> drop_while p (s ++ [x]) = drop_while p s ++ [x].
Proof.
  intros Hx. induction s as [|c s IH]; simpl; [by rewrite Hx|].
  by destruct (p c).
Qed.

Lemma forallb_rev' (p : N -> bool) s :
  forallb p s = true -> forallb p (rev s) = true.
Proof.
  rewrite !forallb_forall. intros H x Hx. apply H. by apply in_rev.
Qed.

Lemma strip_stripped chars s : stripped chars s (strip chars s).
Proof.
  unfold strip, rstrip, lstrip. set (m := mem chars).
  set (s1 := drop_while m s).
  exists (take_while m s), (rev (take_while m (rev s1))).
  split; [|split; [|split; [|split]]].
  - rewrite <- rev_app_distr, take_drop_while, rev_involutive.
    unfold s1. by rewrite take_drop_while.
  - apply take_while_all.
  - apply forallb_rev', take_while_all.
  - pose proof (head_drop_while m s) as Hh. fold s1 in Hh.
    destruct s1 as [|x t]; [done|]. simpl in Hh. simpl rev.
    rewrite drop_while_snoc by done.
    by rewrite rev_app_distr.
  - rewrite rev_involutive. apply head_drop_while.
Qed.

(** ** The two mappings after a run of entries *)

Lemma od_set_keys {V} k (v : V) od :
  (od_set k v od).*1 = if decide (k ∈ od.*1) then od.*1 else od.*1 ++ [k].
Proof.
  induction od as [|[k' v'] od IH].
  - rewrite decide_False; [done|]. apply not_elem_of_nil.
  - cbn [od_set]. destruct (decide (k' = k)) as [->|Hne].
    + rewrite decide_True; [done|]. rewrite fmap_cons. left.
    + rewrite !fmap_cons, IH. cbn [fst].
      destruct (decide (k ∈ od.*1)) as [Hin|Hout].
      * rewrite decide_True; [done|]. by right.
      * rewrite decide_False; [done|].
        intros [->|H]%elem_of_cons; done.
Qed.

Lemma od_get_set {V} k k' (v : V) od :
  od_get k (od_set k' v od) = if decide (k' = k) then Some v else od_get k od.
Proof.
  induction od as [|[k0 v0] od IH]; simpl.
  - done.
  - destruct (decide (k0 = k')) as [->|Hne]; simpl.
    + by destruct (decide (k' = k)).
    + rewrite IH. destruct (decide (k0 = k)) as [->|]; [|done].
      by rewrite decide_False by done.
Qed.

Lemma enums_foldl_lookup (lines : list (list N)) (m : gmap (list N) Z)
  (k : list N) :
  foldl enums_step m lines !! k =
  match last_value k (omap enum_entry lines) with
  | Some v => Some v
  | None => m !! k
  end.
Proof.
  revert m. induction lines as [|ln lines IH]; intros m; simpl; [done|].
  rewrite IH. unfold enums_step.
  destruct (enum_entry ln) as [[n v]|]; simpl; [|done].
  change (list_omap _ _ enum_entry lines) with (omap enum_entry lines).
  destruct (last_value k (omap enum_entry lines)); [done|].
  destruct (decide (n = k)) as [->|Hne].
  - by rewrite lookup_insert_eq.
  - by rewrite lookup_insert_ne.
Qed.

Lemma domain_lists_foldl_get (lines : list (list N)) od (k : list N) :
  od_get k (foldl domain_lists_step od lines) =
  match last_value k (omap domain_list_entry lines) with
  | Some v => Some v
  | None => od_get k od
  end.
Proof.
  revert od. induction lines as [|ln lines IH]; intros od; simpl; [done|].
  rewrite IH. unfold domain_lists_step.
  destruct (domain_list_entry ln) as [[n v]|]; simpl; [|done].
  change (list_omap _ _ domain_list_entry lines)
    with (omap domain_list_entry lines).
  destruct (last_value k (omap domain_list_entry lines)); [done|].
  rewrite od_get_set. by destruct (decide (n = k)).
Qed.

Lemma domain_lists_foldl_keys (lines : list (list N)) od :
  (foldl domain_lists_step od lines).*1 =
  foldl (fun seen k => if decide (k ∈ seen) then seen else seen ++ [k])
    (od.*1) ((omap domain_list_entry lines).*1).
Proof.
  revert od. induction lines as [|ln lines IH]; intros od; simpl; [done|].
  rewrite IH. unfold domain_lists_step.
  destruct (domain_list_entry ln) as [[n v]|]; simpl; [|done].
  by rewrite od_set_keys.
Qed.

(** ** First occurrences and last values *)

Lemma add_key_NoDup (l seen : list (list N)) :
  NoDup seen ->
  NoDup (foldl (fun seen k => if decide (k ∈ seen) then seen else seen ++ [k])
           seen l).
Proof.
  revert seen. induction l as [|k l IH]; intros seen Hs; simpl; [done|].
  apply IH. case_decide as Hin; [done|].
  apply NoDup_app. split; [done|]. split.
  - intros x Hx ->%list_elem_of_singleton. done.
  - apply NoDup_singleton.
Qed.

Lemma first_occurrences_NoDup l : NoDup (first_occurrences l).
Proof. apply add_key_NoDup, NoDup_nil_2. Qed.

Lemma add_key_prefix (l seen : list (list N)) :
  exists tl,
    foldl (fun seen k => if decide (k ∈ seen) then seen else seen ++ [k])
      seen l = seen ++ tl.
Proof.
  revert seen. induction l as [|k l IH]; intros seen; simpl.
  - exists []. by rewrite app_nil_r.
  - case_decide as Hin; [apply IH|].
    destruct (IH (seen ++ [k])) as [tl ->]. exists ([k] ++ tl).
    by rewrite <- app_assoc.
Qed.

Lemma add_key_app (l1 l2 seen : list (list N)) :
  foldl (fun seen k => if decide (k ∈ seen) then seen else seen ++ [k])
    seen (l1 ++ l2) =
  foldl (fun seen k => if decide (k ∈ seen) then seen else seen ++ [k])
    (foldl (fun seen k => if decide (k ∈ seen) then seen else seen ++ [k])
       seen l1) l2.
Proof. apply foldl_app. Qed.

Lemma add_key_elem (l seen : list (list N)) k :
  k ∈ foldl (fun seen k => if decide (k ∈ seen) then seen else seen ++ [k])
        seen l <-> k ∈ seen \/ k ∈ l.
Proof.
  revert seen. induction l as [|x l IH]; intros seen; simpl.
  - split; [by left|]. intros [H|H]; [done|]. by apply elem_of_nil in H.
  - rewrite IH. case_decide as Hin.
    + rewrite elem_of_cons. split; [intros [H|H]; auto|].
      intros [H|[->|H]]; auto.
    + rewrite elem_of_app, list_elem_of_singleton, elem_of_cons. tauto.
Qed.

Lemma elem_of_first_occurrences l k : k ∈ first_occurrences l <-> k ∈ l.
Proof.
  unfold first_occurrences. rewrite add_key_elem. split; [|by right].
  intros [H|H]; [|done]. by apply elem_of_nil in H.
Qed.

(** A key that is new at some place of the list stands, among the first
    occurrences, right after the keys seen before that place. *)
Lemma first_occurrences_position pre k post :
  k ∉ pre ->
  first_occurrences (pre ++ k :: post) !! length (first_occurrences pre)
  = Some k.
Proof.
  intros Hk. unfold first_occurrences. rewrite add_key_app. simpl.
  fold (first_occurrences pre).
  rewrite decide_False by (by rewrite elem_of_first_occurrences).
  destruct (add_key_prefix post (first_occurrences pre ++ [k])) as [tl ->].
  rewrite <- app_assoc. rewrite lookup_app_r by done.
  by rewrite Nat.sub_diag.
Qed.

(** The value of a key is the one of its last occurrence. *)
Lemma last_value_last {V} (pre post : list (list N * V)) k v :
  k ∉ post.*1 -> last_value k (pre ++ (k, v) :: post) = Some v.
Proof.
  intros Hk.
  assert (last_value k post = None) as Hpost.
  { induction post as [|[k' v'] post IH]; simpl in *; [done|].
    apply not_elem_of_cons in Hk as [Hne Hk]. rewrite (IH Hk).
    by rewrite decide_False. }
  induction pre as [|[k0 v0] pre IH]; simpl.
  - by rewrite Hpost, decide_True.
  - by rewrite IH.
Qed.

Lemma last_value_None {V} (l : list (list N * V)) k :
  last_value k l = None <-> k ∉ l.*1.
Proof.
  induction l as [|[k' v'] l IH]; simpl.
  - split; [intros _; apply not_elem_of_nil | done].
  - rewrite not_elem_of_cons, <- IH.
    destruct (last_value k l); [by split; [|intros []]|].
    destruct (decide (k' = k)) as [->|Hne]; [by split; [|intros []]|].
    split; [done|]. by intros [].
Qed.

Lemma od_get_lookup {V} (od : list (list N * V)) i k v :
  NoDup od.*1 -> od !! i = Some (k, v) -> od_get k od = Some v.
Proof.
  revert i. induction od as [|[k' v'] od IH]; intros i Hnd Hi; [done|].
  rewrite fmap_cons in Hnd. apply NoDup_cons in Hnd as [Hk' Hnd].
  destruct i as [|i]; simpl in *.
  - injection Hi as -> ->. by rewrite decide_True.
  - rewrite decide_False; [by apply (IH i)|].
    intros ->. apply Hk'. apply list_elem_of_fmap. exists (k, v).
    split; [done|]. by apply list_elem_of_lookup_2 in Hi.
Qed.

(** ** The merge loop *)

Lemma global_domains_body_eq enums global_domains name domains :
  global_domains_body enums global_domains (name, domains) =
  match enums !! name with
  | Some type => Ok (global_domains ++ [record type domains])
  | None => Raise (KeyError name)
  end.
Proof.
  unfold global_domains_body, getitem. by destruct (enums !! name).
Qed.

Lemma build_Ok enums domain_lists acc global_domains :
  for_each (global_domains_body enums) domain_lists acc = Ok global_domains ->
  exists new,
    global_domains = acc ++ new
    /\ Forall2 (fun p rec => exists type,
                  enums !! fst p = Some type /\ rec = record type (snd p))
         domain_lists new.
Proof.
  revert acc. induction domain_lists as [|[name domains] od IH]; intros acc.
  - intros [= <-]. exists []. split; [by rewrite app_nil_r | constructor].
  - cbn [for_each]. rewrite global_domains_body_eq.
    destruct (enums !! name) as [type|] eqn:E; [|done]. cbn [rbind].
    intros (new & -> & Hnew)%IH. exists (record type domains :: new). split.
    + by rewrite <- app_assoc.
    + constructor; [|done]. by exists type.
Qed.

Lemma build_total enums domain_lists acc :
  Forall (fun p => is_Some (enums !! fst p)) domain_lists ->
  exists global_domains,
    for_each (global_domains_body enums) domain_lists acc = Ok global_domains.
Proof.
  intros Hall. revert acc.
  induction Hall as [|[name domains] od [type Ht] _ IH]; intros acc.
  - by exists acc.
  - cbn [for_each]. rewrite global_domains_body_eq. simpl in Ht.
    rewrite Ht. cbn [rbind]. apply IH.
Qed.

Lemma build_missing enums domain_lists acc :
  Exists (fun p => enums !! fst p = None) domain_lists ->
  exists key,
    for_each (global_domains_body enums) domain_lists acc
    = Raise (KeyError key)
    /\ key ∈ domain_lists.*1 /\ enums !! key = None.
Proof.
  revert acc. induction domain_lists as [|[name domains] od IH]; intros acc Hex.
  - by apply Exists_nil in Hex.
  - cbn [for_each]. rewrite global_domains_body_eq.
    destruct (enums !! name) as [type|] eqn:E.
    + apply Exists_cons in Hex as [Hhd|Htl]; [simpl in Hhd; congruence|].
      destruct (IH (acc ++ [record type domains]) Htl) as (key & Hr & Hk & Hn).
      exists key. cbn [rbind]. split; [done|]. split; [|done].
      rewrite fmap_cons. by right.
    + exists name. split; [done|]. split; [|done]. rewrite fmap_cons. left.
Qed.

(** ** The script *)

Lemma index_lt (l : list (list N)) i :
  (i < length l)%nat -> exists x, index l i = Ok x.
Proof.
  intros Hi. unfold index.
  destruct (lookup_lt_is_Some_2 l i Hi) as [x ->]. by exists x.
Qed.

Lemma usage_ok_length n : usage_ok n = true <-> (n = 2 \/ n = 3)%nat.
Proof.
  unfold usage_ok. rewrite andb_true_iff, !Nat.leb_le. lia.
Qed.

Lemma usage_ok_args (prog : list N) args :
  usage_ok (length (prog :: args)) = false
  <-> (length args = 0 \/ 2 < length args)%nat.
Proof.
  unfold usage_ok. rewrite andb_false_iff, !Nat.leb_gt. simpl. lia.
Qed.

Lemma read_domain_lists_keys (lines : list (list N)) :
  (foldl domain_lists_step [] lines).*1
  = first_occurrences (omap domain_list_entry lines).*1.
Proof. apply domain_lists_foldl_keys. Qed.

Lemma read_domain_lists_NoDup (lines : list (list N)) :
  NoDup (foldl domain_lists_step [] lines).*1.
Proof. rewrite read_domain_lists_keys. apply first_occurrences_NoDup. Qed.

Lemma read_domain_lists_get (lines : list (list N)) (k : list N) :
  od_get k (foldl domain_lists_step [] lines)
  = last_value k (omap domain_list_entry lines).
Proof.
  rewrite domain_lists_foldl_get.
  by destruct (last_value k (omap domain_list_entry lines)).
Qed.

Lemma read_enums_lookup (lines : list (list N)) (k : list N) :
  foldl enums_step ∅ lines !! k = last_value k (omap enum_entry lines).
Proof.
  rewrite enums_foldl_lookup.
  by destruct (last_value k (omap enum_entry lines)).
Qed.

(** ** What a line contributes *)

Lemma enums_body_line (max_str_digits : nat) enums ln name digits :
  enum_line name digits ln ->
  within_limit max_str_digits (length digits) = true ->
  enums_body max_str_digits enums ln = Ok (<[name := decimal digits]> enums).
Proof.
  intros Hl%scan_enum_iff Hd. rewrite enums_body_step.
  - unfold enums_step, enum_entry. by rewrite Hl.
  - unfold convertible. by rewrite Hl.
Qed.

Lemma enums_body_long_line (max_str_digits : nat) enums ln name digits :
  enum_line name digits ln ->
  within_limit max_str_digits (length digits) = false ->
  enums_body max_str_digits enums ln = Raise ValueError.
Proof.
  intros Hl%scan_enum_iff Hd. apply enums_body_over_limit.
  unfold convertible. by rewrite Hl.
Qed.

Lemma enums_body_no_line (max_str_digits : nat) enums ln :
  (forall name digits, ~ enum_line name digits ln) ->
  enums_body max_str_digits enums ln = Ok enums.
Proof.
  intros Hno.
  assert (scan_enum ln = None) as Hs.
  { destruct (scan_enum ln) as [[name digits]|] eqn:E; [|done].
    by apply scan_enum_line, Hno in E. }
  rewrite enums_body_step.
  - unfold enums_step, enum_entry. by rewrite Hs.
  - unfold convertible. by rewrite Hs.
Qed.

Lemma enum_line_digits name digits ln :
  enum_line name digits ln ->
  digits <> [] /\ forallb is_digit digits = true.
Proof. intros (prefix & rest & _ & Hp & _). by destruct Hp. Qed.

(** A line that starts as an enum line is one, with the longest integer. *)
Lemma enum_prefix_line name digits prefix rest :
  enum_prefix name digits prefix ->
  enum_line name (digits ++ take_while is_digit rest) (prefix ++ rest).
Proof.
  intros [ws ws1 ws2 Hws Hname Hword Hws1 Hws2 Hdigits Hdig].
  exists (ws ++ name ++ ws1 ++ py "=" ++ ws2
          ++ digits ++ take_while is_digit rest), (drop_while is_digit rest).
  split; [|split].
  - rewrite <- !app_assoc. by rewrite take_drop_while.
  - constructor; try done.
    + by destruct digits.
    + rewrite forallb_app, Hdig. apply take_while_all.
  - apply head_drop_while.
Qed.

Lemma decimal_nonneg digits : (0 <= decimal digits)%Z.
Proof.
  unfold decimal.
  assert (forall acc, (0 <= acc)%Z ->
            (0 <= fold_left (fun acc c => 10 * acc + digit_value c) digits acc)%Z)
    as Hfold.
  { induction digits as [|c digits IH]; intros acc Hacc; cbn [fold_left].
    - exact Hacc.
    - apply IH. unfold digit_value. lia. }
  by apply Hfold.
Qed.

Lemma domain_lists_body_line domain_lists ln name span :
  domain_list_line name span ln ->
  domain_lists_body domain_lists ln
  = Ok (od_set name (strip strip_chars <$> split 44 span) domain_lists).
Proof.
  intros Hl%scan_domain_list_iff. rewrite domain_lists_body_step.
  unfold domain_lists_step, domain_list_entry. by rewrite Hl.
Qed.

Lemma domain_lists_body_no_line domain_lists ln :
  (forall name span, ~ domain_list_line name span ln) ->
  domain_lists_body domain_lists ln = Ok domain_lists.
Proof.
  intros Hno. rewrite domain_lists_body_step.
  unfold domain_lists_step, domain_list_entry.
  destruct (scan_domain_list ln) as [[name span]|] eqn:E; [|done].
  by apply scan_domain_list_line, Hno in E.
Qed.

Lemma strip_fragments chars (frags : list (list N)) :
  Forall2 (stripped chars) frags (strip chars <$> frags).
Proof.
  apply Forall2_fmap_r, Forall_Forall2_diag, Forall_forall.
  intros frag _. apply strip_stripped.
Qed.

(** A text of one line that is an enum line. *)
Lemma read_enums_line (max_str_digits : nat) (ln name digits : list N) :
  split 10 ln = [ln] ->
  enum_line name digits ln ->
  within_limit max_str_digits (length digits) = true ->
  read_enums max_str_digits ln = Ok {[name := decimal digits]}.
Proof.
  intros Hsplit Hl Hd. unfold read_enums. rewrite Hsplit. cbn [for_each].
  rewrite (enums_body_line max_str_digits ∅ ln name digits) by done.
  cbn [rbind]. by rewrite insert_empty.
Qed.

(** * The claims *)

(** C1. End to end: on the enum text [Foo = 0,] / [Bar = 1,] and the list
    text that adds Foo with x.com and y.com and then Bar with z.com,
    extraction and merge give exactly the two records of type 0 and of
    type 1, in that order, each with its domains and [excluded] false,
    whatever the interpreter's limit on integer digits. *)
Theorem end_to_end_scenario (max_str_digits : nat) :
  pipeline max_str_digits scenario_enum_text scenario_list_text
  = Ok [ [(py "type", PInt 0);
          (py "domains", PList [py "x.com"; py "y.com"]);
          (py "excluded", PBool false)];
         [(py "type", PInt 1);
          (py "domains", PList [py "z.com"]);
          (py "excluded", PBool false)] ].
Proof. destruct max_str_digits; vm_compute; reflexivity. Qed.

(** The same scenario through the whole script: the run completes and the
    output file holds the two records as indented JSON. *)
Example end_to_end_file :
  let run :=
    main (scenario_env [py "global_domains.py"; py "out.json"]
            scenario_enum_text scenario_list_text) empty_world in
  fst run = Ok tt
  /\ stdout (snd run) = []
  /\ files (snd run) !! py "out.json"
     = Some (json_dumps
               [record 0 [py "x.com"; py "y.com"]; record 1 [py "z.com"]])
  /\ take 25 (json_dumps [record 1 [py "z.com"]])
     = py "[" ++ [10] ++ py "  {" ++ [10] ++ py "    " ++ quoted (py "type")
       ++ py ": 1," ++ [10] ++ py "    ".
Proof. vm_compute. repeat split; reflexivity. Qed.

(** C2. Merge postcondition: for a pair (name, domains) of the ordered
    mapping whose name the enum mapping knows, the turn of the loop on that
    pair appends exactly one record, with the keys type, domains, excluded
    in this order, the enum mapping's integer, the list unchanged and
    [False]; when the loop completes, that record stands at the pair's
    place, and the loop completes when every name is known. *)
Theorem merge_postcondition (enums : gmap (list N) Z)
  (domain_lists : list (list N * list (list N))) (i : nat)
  (name : list N) (domains : list (list N)) (type : Z) :
  domain_lists !! i = Some (name, domains) ->
  enums !! name = Some type ->
  (forall global_domains,
     global_domains_body enums global_domains (name, domains)
     = Ok (global_domains
           ++ [[(py "type", PInt type); (py "domains", PList domains);
                (py "excluded", PBool false)]]))
  /\ (forall global_domains,
        build_global_domains enums domain_lists = Ok global_domains ->
        length global_domains = length domain_lists
        /\ global_domains !! i
           = Some [(py "type", PInt type); (py "domains", PList domains);
                   (py "excluded", PBool false)])
  /\ ((forall p, p ∈ domain_lists -> is_Some (enums !! fst p)) ->
      exists global_domains,
        build_global_domains enums domain_lists = Ok global_domains).
Proof.
  intros Hi Hname. split; [|split].
  - intros acc. by rewrite global_domains_body_eq, Hname.
  - intros recs (new & -> & Hnew)%build_Ok. simpl. split.
    + symmetry. by eapply Forall2_length.
    + destruct (Forall2_lookup_l _ _ _ _ _ Hnew Hi) as (rec & Hrec & type' & Ht & ->).
      simpl in Ht. rewrite Hname in Ht. by injection Ht as <-.
  - intros Hall. apply build_total. by apply Forall_forall.
Qed.

Lemma merge_postcondition_witness :
  (forall global_domains,
     global_domains_body {[py "Foo" := 7%Z]} global_domains
       (py "Foo", [py "x.com"])
     = Ok (global_domains
           ++ [[(py "type", PInt 7); (py "domains", PList [py "x.com"]);
                (py "excluded", PBool false)]]))
  /\ (forall global_domains,
        build_global_domains {[py "Foo" := 7%Z]} [(py "Foo", [py "x.com"])]
        = Ok global_domains ->
        length global_domains = 1%nat
        /\ global_domains !! 0%nat
           = Some [(py "type", PInt 7); (py "domains", PList [py "x.com"]);
                   (py "excluded", PBool false)])
  /\ ((forall p, p ∈ [(py "Foo", [py "x.com"])] ->
         is_Some (({[py "Foo" := 7%Z]} : gmap (list N) Z) !! fst p)) ->
      exists global_domains,
        build_global_domains {[py "Foo" := 7%Z]} [(py "Foo", [py "x.com"])]
        = Ok global_domains).
Proof.
  apply (merge_postcondition {[py "Foo" := 7%Z]} [(py "Foo", [py "x.com"])]
           0 (py "Foo") [py "x.com"] 7); reflexivity.
Defined.

(** C3. Missing-key atomicity: on a run that gets as far as the merge (the
    argument count is accepted, both texts are fetched and read), if a name
    of the domain list mapping is not a key of the enum mapping, the merge
    loop raises [KeyError] for such a name and the script ends with that
    exception uncaught, the standard output and every file left as they
    were: the output file is never opened. *)
Theorem missing_key_atomicity (e : env) (w : world)
  (ref enum_text list_text : list N) (enums : gmap (list N) Z)
  (domain_lists : list (list N * list (list N))) (name : list N) :
  usage_ok (length (sys_argv e)) = true ->
  GIT_REF (sys_argv e) = Ok ref ->
  urlopen e (ENUMS_URL ref) = Some enum_text ->
  urlopen e (DOMAIN_LISTS_URL ref) = Some list_text ->
  read_enums (int_max_str_digits e) enum_text = Ok enums ->
  read_domain_lists list_text = Ok domain_lists ->
  name ∈ domain_lists.*1 ->
  enums !! name = None ->
  exists key,
    build_global_domains enums domain_lists = Raise (KeyError key)
    /\ key ∈ domain_lists.*1 /\ enums !! key = None
    /\ main e w = (Raise (KeyError key), w)
    /\ files (snd (main e w)) = files w
    /\ exit_status (fst (main e w)) = 1%Z.
Proof.
  intros Husage Href Henums Hlists Hre Hrl Hname Hnone.
  assert (Exists (fun p => enums !! fst p = None) domain_lists) as Hex.
  { apply Exists_exists.
    apply list_elem_of_fmap in Hname as ([n d] & -> & Hin).
    exists (n, d). split; done. }
  destruct (build_missing enums domain_lists [] Hex) as (key & Hb & Hk & Hn).
  fold (build_global_domains enums domain_lists) in Hb.
  exists key. split; [done|]. split; [done|]. split; [done|].
  assert (main e w = (Raise (KeyError key), w)) as Hmain.
  { destruct (index_lt (sys_argv e) 1) as [out Hout].
    { apply usage_ok_length in Husage. lia. }
    unfold main, fetch, bind, lift, ret.
    rewrite Husage. cbv beta iota delta [negb].
    rewrite Hout. cbv beta iota. rewrite Href. cbv beta iota.
    rewrite Henums. cbv beta iota. rewrite Hre. cbv beta iota.
    rewrite Hlists. cbv beta iota. rewrite Hrl. cbv beta iota.
    by rewrite Hb. }
  rewrite Hmain. done.
Qed.

Lemma missing_key_atomicity_witness :
  exists key,
    build_global_domains {[py "Foo" := 0%Z]}
      [(py "Foo", [py "x.com"; py "y.com"]); (py "Bar", [py "z.com"])]
    = Raise (KeyError key)
    /\ key ∈ [(py "Foo", [py "x.com"; py "y.com"]); (py "Bar", [py "z.com"])].*1
    /\ ({[py "Foo" := 0%Z]} : gmap (list N) Z) !! key = None
    /\ main (scenario_env [py "global_domains.py"; py "out.json"]
               (py "Foo = 0,") scenario_list_text) empty_world
       = (Raise (KeyError key), empty_world)
    /\ files (snd (main (scenario_env [py "global_domains.py"; py "out.json"]
                          (py "Foo = 0,") scenario_list_text) empty_world))
       = files empty_world
    /\ exit_status
         (fst (main (scenario_env [py "global_domains.py"; py "out.json"]
                       (py "Foo = 0,") scenario_list_text) empty_world))
       = 1%Z.
Proof.
  apply (missing_key_atomicity
           (scenario_env [py "global_domains.py"; py "out.json"]
              (py "Foo = 0,") scenario_list_text)
           empty_world (py "main") (py "Foo = 0,") scenario_list_text
           {[py "Foo" := 0%Z]}
           [(py "Foo", [py "x.com"; py "y.com"]); (py "Bar", [py "z.com"])]
           (py "Bar")).
  - reflexivity.
  - reflexivity.
  - reflexivity.
  - reflexivity.
  - vm_compute. reflexivity.
  - vm_compute. reflexivity.
  - vm_compute. right. left.
  - vm_compute. reflexivity.
Defined.

(** C8. Usage error: called with no argument or with more than two
    arguments after the program name, the script prints the usage message
    (the program name with the synopsis, an empty line, the two lines of
    the description) on the standard output and exits with status 1; no
    file is created or changed. *)
Theorem usage_error (e : env) (w : world) (prog : list N)
  (args : list (list N)) :
  sys_argv e = prog :: args ->
  (length args = 0 \/ 2 < length args)%nat ->
  main e w
  = (Raise (SystemExit 1),
     {| stdout := stdout w ++ usage_message prog; files := files w |})
  /\ exit_status (fst (main e w)) = 1%Z
  /\ files (snd (main e w)) = files w.
Proof.
  intros Hargv Hargs.
  assert (main e w
          = (Raise (SystemExit 1),
             {| stdout := stdout w ++ usage_message prog;
                files := files w |})) as Hmain.
  { unfold main. rewrite Hargv.
    apply usage_ok_args with (prog := prog) in Hargs. rewrite Hargs.
    unfold bind, lift, print, sys_exit, index, usage_message.
    change ((prog :: args) !! 0%nat) with (Some prog).
    cbv beta iota delta [negb stdout files].
    f_equal. f_equal. rewrite <- !app_assoc. reflexivity. }
  rewrite Hmain. done.
Qed.

Lemma usage_error_witness :
  main (scenario_env [py "global_domains.py"] [] []) empty_world
  = (Raise (SystemExit 1),
     {| stdout := stdout empty_world ++ usage_message (py "global_domains.py");
        files := files empty_world |})
  /\ exit_status
       (fst (main (scenario_env [py "global_domains.py"] [] []) empty_world))
     = 1%Z
  /\ files (snd (main (scenario_env [py "global_domains.py"] [] [])
                   empty_world))
     = files empty_world.
Proof.
  apply (usage_error (scenario_env [py "global_domains.py"] [] [])
           empty_world (py "global_domains.py") []).
  - reflexivity.
  - left. reflexivity.
Defined.

(** C4. Output ordering: whatever the list text and whatever codes the enum
    mapping gives, the names of the domain list mapping are the names of the
    matching lines in the order of their first occurrence, and the output
    records stand in that same order, each with the code and the last list
    of its name. *)
Theorem output_order (list_text : list N) (enums : gmap (list N) Z)
  (domain_lists : list (list N * list (list N)))
  (global_domains : list (list (list N * pyval))) :
  read_domain_lists list_text = Ok domain_lists ->
  build_global_domains enums domain_lists = Ok global_domains ->
  domain_lists.*1
  = first_occurrences (omap domain_list_entry (split 10 list_text)).*1
  /\ Forall2
       (fun name rec => exists type domains,
          enums !! name = Some type
          /\ last_value name (omap domain_list_entry (split 10 list_text))
             = Some domains
          /\ rec = record type domains)
       (domain_lists.*1) global_domains.
Proof.
  rewrite read_domain_lists_foldl. intros [= <-] Hb.
  set (lines := split 10 list_text) in *.
  split; [apply read_domain_lists_keys|].
  apply build_Ok in Hb as (new & -> & Hnew). simpl.
  apply Forall2_fmap_l, Forall2_same_length_lookup.
  split; [by eapply Forall2_length|].
  intros i [k v] rec Hi Hrec.
  destruct (Forall2_lookup_lr _ _ _ _ _ _ Hnew Hi Hrec) as (type & Ht & ->).
  exists type, v. split; [done|]. split; [|done].
  rewrite <- read_domain_lists_get.
  apply (od_get_lookup _ i); [apply read_domain_lists_NoDup | done].
Qed.

Lemma output_order_witness :
  [(py "B", [py "b.com"]); (py "A", [py "a.com"]); (py "C", [py "c.com"])].*1
  = first_occurrences (omap domain_list_entry (split 10 order_list_text)).*1
  /\ Forall2
       (fun name rec => exists type domains,
          order_enums !! name = Some type
          /\ last_value name (omap domain_list_entry (split 10 order_list_text))
             = Some domains
          /\ rec = record type domains)
       ([(py "B", [py "b.com"]); (py "A", [py "a.com"]);
         (py "C", [py "c.com"])].*1)
       [record 2 [py "b.com"]; record 0 [py "a.com"]; record 1 [py "c.com"]].
Proof.
  apply (output_order order_list_text order_enums
           [(py "B", [py "b.com"]); (py "A", [py "a.com"]);
            (py "C", [py "c.com"])]
           [record 2 [py "b.com"]; record 0 [py "a.com"];
            record 1 [py "c.com"]]).
  - vm_compute. reflexivity.
  - vm_compute. reflexivity.
Defined.

(** C5. Enum extractor, line by line: a line made of optional blanks, a
    name of letters, digits and underscores, an equals sign with optional
    blanks around it and a decimal integer, followed by anything, makes the
    loop body record the entry name -> integer, the integer not negative,
    provided the interpreter converts an integer of that many digits (it
    has no limit, or the digits are within it); when the integer has more
    digits than the limit, the loop body raises [ValueError] and records
    nothing.  Any line that starts this way is such a line, for its longest
    integer; a line that does not start this way leaves the mapping as it
    is.  So [Foo = 3,] records Foo -> 3, and [  // Foo = 3] and [{] record
    nothing. *)
Theorem enum_line_behaviour :
  (forall (max_str_digits : nat) (enums : gmap (list N) Z)
          (name digits ln : list N),
     enum_line name digits ln ->
     (max_str_digits = 0 \/ length digits <= max_str_digits)%nat ->
     int max_str_digits digits = Ok (decimal digits)
     /\ (0 <= decimal digits)%Z
     /\ enums_body max_str_digits enums ln
        = Ok (<[name := decimal digits]> enums))
  /\ (forall name digits prefix rest : list N,
        enum_prefix name digits prefix ->
        enum_line name (digits ++ take_while is_digit rest) (prefix ++ rest))
  /\ (forall (max_str_digits : nat) (enums : gmap (list N) Z) (ln : list N),
        (forall name digits, ~ enum_line name digits ln) ->
        enums_body max_str_digits enums ln = Ok enums)
  /\ (forall (max_str_digits : nat) (enums : gmap (list N) Z),
        enums_body max_str_digits enums (py "Foo = 3,")
        = Ok (<[py "Foo" := 3%Z]> enums)
        /\ enums_body max_str_digits enums (py "  // Foo = 3") = Ok enums
        /\ enums_body max_str_digits enums (py "{") = Ok enums)
  /\ (forall (max_str_digits : nat) (enums : gmap (list N) Z)
             (name digits ln : list N),
        enum_line name digits ln ->
        (0 < max_str_digits < length digits)%nat ->
        enums_body max_str_digits enums ln = Raise ValueError).
Proof.
  split; [|split; [|split; [|split]]].
  - intros max_str_digits enums name digits ln Hl Hd%within_limit_iff.
    split; [|split].
    + apply enum_line_digits in Hl as [Hne Hall]. by apply int_decimal.
    + apply decimal_nonneg.
    + by apply enums_body_line.
  - intros name digits prefix rest. apply enum_prefix_line.
  - intros max_str_digits enums ln. apply enums_body_no_line.
  - intros max_str_digits enums. split; [|split].
    + apply (enums_body_line max_str_digits enums _ (py "Foo") (py "3")).
      * apply scan_enum_iff. vm_compute. reflexivity.
      * apply within_limit_iff. simpl. lia.
    + apply enums_body_no_line. intros name digits Hl%scan_enum_iff.
      vm_compute in Hl. discriminate Hl.
    + apply enums_body_no_line. intros name digits Hl%scan_enum_iff.
      vm_compute in Hl. discriminate Hl.
  - intros max_str_digits enums name digits ln Hl Hd.
    apply (enums_body_long_line _ _ _ name digits); [done|].
    destruct (within_limit max_str_digits (length digits)) eqn:Hw; [|done].
    apply within_limit_iff in Hw. lia.
Qed.

Lemma enum_line_behaviour_witness :
  int 4300 (py "3") = Ok (decimal (py "3")) /\ (0 <= decimal (py "3"))%Z
  /\ enums_body 4300 ∅ (py "Foo = 3,")
     = Ok (<[py "Foo" := decimal (py "3")]> ∅).
Proof.
  apply (proj1 enum_line_behaviour 4300%nat ∅ (py "Foo") (py "3")
           (py "Foo = 3,")).
  - apply scan_enum_iff. vm_compute. reflexivity.
  - right. simpl. lia.
Defined.

(** C5 does not hold as it stands: the line [A = 11...1] of 4301 digits has
    the shape the claim describes, a name, an equals sign and a decimal
    integer, yet under the default limit of 4300 digits the loop body
    raises [ValueError] on it and records no entry. *)
Lemma enum_line_behaviour_counterexample :
  enum_line (py "A") (replicate 4301 49) long_enum_line
  /\ forallb is_digit (replicate 4301 49) = true
  /\ enums_body 4300 ∅ long_enum_line = Raise ValueError
  /\ enums_body 4300 ∅ long_enum_line
     <> Ok (<[py "A" := decimal (replicate 4301 49)]> ∅).
Proof.
  assert (enums_body 4300 ∅ long_enum_line = Raise ValueError) as Hbody.
  { vm_compute. reflexivity. }
  split; [|split; [|split]].
  - apply scan_enum_iff. vm_compute. reflexivity.
  - vm_compute. reflexivity.
  - exact Hbody.
  - rewrite Hbody. discriminate.
Qed.

(** C6. Domain list extractor, line by line: on a line made of optional
    blanks, [GlobalDomains.Add(GlobalEquivalentDomainsType.], a name, a
    comma, [new List<string>], an opening brace, a span without closing
    brace and [});], followed by anything, the loop body stores under the
    name the fragments of the span between its commas, each without its
    leading and trailing spaces and double quotes; a line that does not
    start this way leaves the mapping as it is.  So the line whose braces
    hold ["a.com", " b.com "] stores [a.com] and [b.com]. *)
Theorem domain_list_line_behaviour :
  (forall (domain_lists : list (list N * list (list N)))
          (name span ln : list N),
     domain_list_line name span ln ->
     exists domains,
       domain_lists_body domain_lists ln
       = Ok (od_set name domains domain_lists)
       /\ od_get name (od_set name domains domain_lists) = Some domains
       /\ Forall2 (stripped (py " " ++ [dq])) (split 44 span) domains
       /\ join (py ",") (split 44 span) = span
       /\ Forall (fun frag => forallb (fun c => negb (c =? 44)) frag = true)
            (split 44 span))
  /\ (forall (domain_lists : list (list N * list (list N))) (ln : list N),
        (forall name span, ~ domain_list_line name span ln) ->
        domain_lists_body domain_lists ln = Ok domain_lists)
  /\ domain_lists_body []
       (list_line (py "Foo") [py "a.com"; py " b.com "])
     = Ok [(py "Foo", [py "a.com"; py "b.com"])]
  /\ list_line (py "Foo") [py "a.com"; py " b.com "]
     = py "GlobalDomains.Add(GlobalEquivalentDomainsType.Foo, new List<string> { "
       ++ quoted (py "a.com") ++ py ", " ++ quoted (py " b.com ")
       ++ py " });"
  /\ (forall domain_lists : list (list N * list (list N)),
        domain_lists_body domain_lists (py "{") = Ok domain_lists).
Proof.
  split; [|split; [|split; [|split]]].
  - intros domain_lists name span ln Hl.
    exists (strip strip_chars <$> split 44 span).
    split; [by apply domain_lists_body_line|].
    split; [by rewrite od_get_set, decide_True|].
    split; [apply strip_fragments|].
    split; [apply (split_join 44) | apply split_no_sep].
  - intros domain_lists ln. apply domain_lists_body_no_line.
  - vm_compute. reflexivity.
  - vm_compute. reflexivity.
  - intros domain_lists.
    rewrite domain_lists_body_step. unfold domain_lists_step.
    assert (domain_list_entry (py "{") = None) as ->; [|done].
    vm_compute. reflexivity.
Qed.

Lemma domain_list_line_behaviour_witness :
  exists domains,
    domain_lists_body [] (list_line (py "Foo") [py "a.com"; py " b.com "])
    = Ok (od_set (py "Foo") domains [])
    /\ od_get (py "Foo") (od_set (py "Foo") domains []) = Some domains
    /\ Forall2 (stripped (py " " ++ [dq]))
         (split 44 (py " " ++ quoted (py "a.com") ++ py ", "
                    ++ quoted (py " b.com ") ++ py " "))
         domains
    /\ join (py ",")
         (split 44 (py " " ++ quoted (py "a.com") ++ py ", "
                    ++ quoted (py " b.com ") ++ py " "))
       = py " " ++ quoted (py "a.com") ++ py ", " ++ quoted (py " b.com ")
         ++ py " "
    /\ Forall (fun frag => forallb (fun c => negb (c =? 44)) frag = true)
         (split 44 (py " " ++ quoted (py "a.com") ++ py ", "
                    ++ quoted (py " b.com ") ++ py " ")).
Proof.
  apply (proj1 domain_list_line_behaviour [] (py "Foo")
           (py " " ++ quoted (py "a.com") ++ py ", " ++ quoted (py " b.com ")
            ++ py " ")
           (list_line (py "Foo") [py "a.com"; py " b.com "])).
  apply scan_domain_list_iff. vm_compute. reflexivity.
Defined.

(** C7. Duplicates: in the mappings the two reading loops return, the enum
    mapping gives each name the integer of its last matching line, the
    domain list mapping gives each name the list of its last matching line,
    and the names of the domain list mapping stand in the order of their
    first matching lines, each once.  In particular a name that occurs
    again after its first line keeps the place of that first line and holds
    the list of its last line. *)
Theorem duplicate_semantics (max_str_digits : nat)
  (enum_text list_text : list N) (enums : gmap (list N) Z)
  (domain_lists : list (list N * list (list N))) :
  read_enums max_str_digits enum_text = Ok enums ->
  read_domain_lists list_text = Ok domain_lists ->
    (forall name,
          enums !! name
          = last_value name (omap enum_entry (split 10 enum_text)))
    /\ (forall pre name value post,
          omap enum_entry (split 10 enum_text) = pre ++ (name, value) :: post ->
          name ∉ post.*1 ->
          enums !! name = Some value)
    /\ (forall name,
          od_get name domain_lists
          = last_value name (omap domain_list_entry (split 10 list_text)))
    /\ domain_lists.*1
       = first_occurrences (omap domain_list_entry (split 10 list_text)).*1
    /\ NoDup domain_lists.*1
    /\ (forall pre name domains post,
          omap domain_list_entry (split 10 list_text)
          = pre ++ (name, domains) :: post ->
          name ∉ post.*1 ->
          od_get name domain_lists = Some domains)
    /\ (forall pre name domains post,
          omap domain_list_entry (split 10 list_text)
          = pre ++ (name, domains) :: post ->
          name ∉ pre.*1 ->
          exists last,
            last_value name (omap domain_list_entry (split 10 list_text))
            = Some last
            /\ domain_lists !! length (first_occurrences pre.*1)
               = Some (name, last)).
Proof.
  intros [_ ->]%read_enums_Ok. rewrite read_domain_lists_foldl.
  intros [= <-].
  set (E := omap enum_entry (split 10 enum_text)).
  set (L := omap domain_list_entry (split 10 list_text)).
  split; [intros name; apply read_enums_lookup|].
  split.
  { intros pre name value post HE Hpost.
    rewrite read_enums_lookup. fold E. rewrite HE.
    by apply last_value_last. }
  split; [intros name; apply read_domain_lists_get|].
  split; [apply read_domain_lists_keys|].
  split; [apply read_domain_lists_NoDup|].
  split.
  { intros pre name domains post HL Hpost.
    rewrite read_domain_lists_get. fold L. rewrite HL.
    by apply last_value_last. }
  intros pre name domains post HL Hpre.
  pose proof (read_domain_lists_keys (split 10 list_text)) as Hkeys.
  fold L in Hkeys.
  assert ((foldl domain_lists_step [] (split 10 list_text)).*1
            !! length (first_occurrences pre.*1) = Some name) as Hpos.
  { rewrite Hkeys, HL, fmap_app, fmap_cons.
    by apply first_occurrences_position. }
  rewrite list_lookup_fmap in Hpos.
  destruct (foldl domain_lists_step [] (split 10 list_text)
              !! length (first_occurrences pre.*1))
    as [[k last]|] eqn:Hi; [|done].
  injection Hpos as ->. exists last. split; [|done].
  unfold L. rewrite <- read_domain_lists_get.
  apply (od_get_lookup _ _ _ _ (read_domain_lists_NoDup _) Hi).
Qed.

(** Texts where Foo occurs twice, around Bar: Foo comes first and holds
    the list of its second line; in the enum text the second value of Foo
    is the one kept. *)
Example duplicate_semantics_example :
  read_domain_lists duplicate_list_text
  = Ok [(py "Foo", [py "y.com"; py "w.com"]); (py "Bar", [py "z.com"])]
  /\ read_enums 4300 duplicate_enum_text
     = Ok (<[py "Foo" := 7%Z]> (<[py "Bar" := 1%Z]> ∅)).
Proof. split; vm_compute; reflexivity. Qed.

Lemma duplicate_semantics_witness :
  (<[py "Foo" := 7%Z]> (<[py "Bar" := 1%Z]> ∅) : gmap (list N) Z)
    !! py "Foo" = Some 7%Z
  /\ od_get (py "Foo")
       [(py "Foo", [py "y.com"; py "w.com"]); (py "Bar", [py "z.com"])]
     = Some [py "y.com"; py "w.com"]
  /\ (exists last,
        last_value (py "Foo")
          (omap domain_list_entry (split 10 duplicate_list_text))
        = Some last
        /\ [(py "Foo", [py "y.com"; py "w.com"]); (py "Bar", [py "z.com"])]
           !! 0%nat
           = Some (py "Foo", last)).
Proof.
  destruct (duplicate_semantics 4300 duplicate_enum_text duplicate_list_text
              (<[py "Foo" := 7%Z]> (<[py "Bar" := 1%Z]> ∅))
              [(py "Foo", [py "y.com"; py "w.com"]); (py "Bar", [py "z.com"])])
    as (_ & Hvalue & _ & _ & _ & Hlist & Hplace).
  - vm_compute. reflexivity.
  - vm_compute. reflexivity.
  - split; [|split].
    + apply (Hvalue [(py "Foo", 0%Z); (py "Bar", 1%Z)] (py "Foo") 7%Z []).
      * vm_compute. reflexivity.
      * apply not_elem_of_nil.
    + apply (Hlist [(py "Foo", [py "x.com"]); (py "Bar", [py "z.com"])]
               (py "Foo") [py "y.com"; py "w.com"] []).
      * vm_compute. reflexivity.
      * apply not_elem_of_nil.
    + apply (Hplace [] (py "Foo") [py "x.com"]
               [(py "Bar", [py "z.com"]);
                (py "Foo", [py "y.com"; py "w.com"])]).
      * vm_compute. reflexivity.
      * apply not_elem_of_nil.
Defined.

(** C9. Totality of the extractors, up to the interpreter's limit on
    integer digits: when the enum pattern matches a line, both groups are
    set and the second one is a non-empty run of decimal digits; its
    conversion to an integer succeeds when the interpreter has no limit
    (the limit is 0) or the run has no more digits than the limit, and
    raises [ValueError] otherwise.  Hence the enum loop runs to completion
    exactly on the texts whose integers are all within the limit, and on
    every text where there is no limit; the domain list loop runs to
    completion on every text. *)
Theorem extractors_total_within_limit :
  (forall (max_str_digits : nat) (ln : list N) (m : list (nat * list N)),
     re_match ENUM_RE ln = Some m ->
     exists name digits,
       group m 1 = Ok name /\ group m 2 = Ok digits
       /\ digits <> [] /\ forallb is_digit digits = true
       /\ int max_str_digits digits
          = if within_limit max_str_digits (length digits)
            then Ok (decimal digits) else Raise ValueError)
  /\ (forall (max_str_digits : nat) (text : list N),
        if forallb (convertible max_str_digits) (split 10 text)
        then exists enums, read_enums max_str_digits text = Ok enums
        else read_enums max_str_digits text = Raise ValueError)
  /\ (forall text : list N, exists enums, read_enums 0 text = Ok enums)
  /\ (forall (domain_lists : list (list N * list (list N))) (ln : list N),
        exists domain_lists',
          domain_lists_body domain_lists ln = Ok domain_lists')
  /\ (forall text : list N,
        exists domain_lists, read_domain_lists text = Ok domain_lists).
Proof.
  split; [|split; [|split; [|split]]].
  - intros max_str_digits ln m. rewrite ENUM_RE_scan.
    destruct (scan_enum ln) as [[name digits]|] eqn:E; [|done].
    intros [= <-]. exists name, digits.
    apply scan_enum_line, enum_line_digits in E as [Hne Hd].
    split; [done|]. split; [done|]. split; [done|]. split; [done|].
    destruct (within_limit max_str_digits (length digits)) eqn:Hl.
    + by apply int_decimal.
    + by apply int_over_limit.
  - intros max_str_digits text.
    destruct (forallb (convertible max_str_digits) (split 10 text)) eqn:Hl.
    + eexists. by apply read_enums_foldl.
    + by apply enums_over_limit.
  - intros text. eexists. apply read_enums_foldl.
    apply forallb_forall. intros ln _. apply convertible_no_limit.
  - intros domain_lists ln. eexists. apply domain_lists_body_step.
  - intros text. eexists. apply read_domain_lists_foldl.
Qed.

Lemma extractors_total_within_limit_witness :
  exists name digits,
    group [(2%nat, py "30"); (1%nat, py "Timeout")] 1 = Ok name
    /\ group [(2%nat, py "30"); (1%nat, py "Timeout")] 2 = Ok digits
    /\ digits <> [] /\ forallb is_digit digits = true
    /\ int 4300 digits
       = if within_limit 4300 (length digits)
         then Ok (decimal digits) else Raise ValueError.
Proof.
  apply (proj1 extractors_total_within_limit 4300%nat (py "Timeout = 30abc")
           [(2%nat, py "30"); (1%nat, py "Timeout")]).
  vm_compute. reflexivity.
Defined.

(** C9 does not hold as it stands: under the default limit of 4300 digits,
    the enum pattern matches the line [A = 11...1] of 4301 digits, its
    second group is that run of digits, the conversion raises [ValueError],
    the enum loop does not complete and the script ends with the exception
    uncaught, no file written. *)
Lemma extractors_total_counterexample :
  re_match ENUM_RE long_enum_line
  = Some [(2%nat, replicate 4301 49); (1%nat, py "A")]
  /\ forallb is_digit (replicate 4301 49) = true
  /\ int 4300 (replicate 4301 49) = Raise ValueError
  /\ enums_body 4300 ∅ long_enum_line = Raise ValueError
  /\ read_enums 4300 long_enum_line = Raise ValueError
  /\ main (scenario_env [py "global_domains.py"; py "out.json"]
             long_enum_line scenario_list_text) empty_world
     = (Raise ValueError, empty_world).
Proof. vm_compute. repeat split; reflexivity. Qed.

(** C10. Prefix matching: the enum pattern is tried at the start of the
    line only and does not have to reach its end.  A line that starts as an
    enum line records the entry of that start whatever follows the
    integer, the rest of the line being ignored; a line changes the mapping
    by one entry at most; a line whose first character after the blanks
    is not a name character records nothing, whatever it holds further on.
    So [Foo = 3, Bar = 4] records Foo -> 3 and nothing for Bar, and
    [Timeout = 30abc] records Timeout -> 30. *)
Theorem prefix_matching :
  (forall (max_str_digits : nat) (enums : gmap (list N) Z)
          (name digits prefix rest : list N),
     enum_prefix name digits prefix ->
     head_in is_digit rest = false ->
     (max_str_digits = 0 \/ length digits <= max_str_digits)%nat ->
     re_match ENUM_RE (prefix ++ rest) = re_match ENUM_RE prefix
     /\ enums_body max_str_digits enums (prefix ++ rest)
        = Ok (<[name := decimal digits]> enums)
     /\ enums_body max_str_digits enums (prefix ++ rest)
        = enums_body max_str_digits enums prefix)
  /\ (forall (max_str_digits : nat) (enums : gmap (list N) Z) (ln : list N),
        enums_body max_str_digits enums ln = Ok enums
        \/ (exists name value,
              enums_body max_str_digits enums ln
              = Ok (<[name := value]> enums))
        \/ enums_body max_str_digits enums ln = Raise ValueError)
  /\ (forall (max_str_digits : nat) (enums : gmap (list N) Z)
             (ws : list N) (c : N) (rest : list N),
        forallb is_space ws = true ->
        is_space c = false -> is_word c = false ->
        enums_body max_str_digits enums (ws ++ c :: rest) = Ok enums)
  /\ (forall max_str_digits : nat,
        read_enums max_str_digits (py "Foo = 3, Bar = 4")
        = Ok {[py "Foo" := 3%Z]})
  /\ (forall max_str_digits : nat,
        (max_str_digits = 0 \/ 2 <= max_str_digits)%nat ->
        read_enums max_str_digits (py "Timeout = 30abc")
        = Ok {[py "Timeout" := 30%Z]})
  /\ ({[py "Foo" := 3%Z]} : gmap (list N) Z) !! py "Bar" = None.
Proof.
  split; [|split; [|split; [|split; [|split]]]].
  - intros max_str_digits enums name digits prefix rest Hp Hrest
      Hd%within_limit_iff.
    assert (enums_body max_str_digits enums (prefix ++ rest)
            = Ok (<[name := decimal digits]> enums)) as Hline.
    { apply enums_body_line; [|done]. by exists prefix, rest. }
    split; [|split; [done|]].
    + rewrite !ENUM_RE_scan. rewrite (scan_enum_prefix name digits) by done.
      rewrite <- (app_nil_r prefix).
      by rewrite (scan_enum_prefix name digits).
    + rewrite Hline. symmetry. apply enums_body_line; [|done].
      exists prefix, []. by rewrite app_nil_r.
  - intros max_str_digits enums ln.
    destruct (convertible max_str_digits ln) eqn:Hl.
    + rewrite enums_body_step by done. unfold enums_step.
      destruct (enum_entry ln) as [[name value]|]; [right; left|by left].
      by exists name, value.
    + right; right. by apply enums_body_over_limit.
  - intros max_str_digits enums ws c rest Hws Hspace Hword.
    assert (scan_enum (ws ++ c :: rest) = None) as Hs.
    { unfold scan_enum. rewrite (drop_while_app is_space ws) by done.
      cbn [take_while]. by rewrite Hword. }
    rewrite enums_body_step.
    + unfold enums_step, enum_entry. by rewrite Hs.
    + unfold convertible. by rewrite Hs.
  - intros max_str_digits.
    apply (read_enums_line max_str_digits _ (py "Foo") (py "3")).
    + vm_compute. reflexivity.
    + apply scan_enum_iff. vm_compute. reflexivity.
    + apply within_limit_iff. simpl. lia.
  - intros max_str_digits Hlimit.
    apply (read_enums_line max_str_digits _ (py "Timeout") (py "30")).
    + vm_compute. reflexivity.
    + apply scan_enum_iff. vm_compute. reflexivity.
    + by apply within_limit_iff.
  - vm_compute. reflexivity.
Qed.

Lemma prefix_matching_witness :
  re_match ENUM_RE (py "Foo = 3" ++ py ", Bar = 4")
  = re_match ENUM_RE (py "Foo = 3")
  /\ enums_body 4300 ∅ (py "Foo = 3" ++ py ", Bar = 4")
     = Ok (<[py "Foo" := decimal (py "3")]> ∅)
  /\ enums_body 4300 ∅ (py "Foo = 3" ++ py ", Bar = 4")
     = enums_body 4300 ∅ (py "Foo = 3").
Proof.
  apply (proj1 prefix_matching 4300%nat ∅ (py "Foo") (py "3") (py "Foo = 3")
           (py ", Bar = 4")).
  - apply (enum_prefix_intro (py "Foo") (py "3") [] (py " ") (py " "));
      vm_compute; congruence.
  - reflexivity.
  - right. simpl. lia.
Defined.

(** * Further properties *)

(** ** The run, step by step *)

Lemma GIT_REF_args (prog out : list N) (rest : list (list N)) :
  (length rest <= 1)%nat ->
  GIT_REF (prog :: out :: rest) = Ok (revision rest).
Proof. destruct rest as [|ref [|ref' rest]]; simpl; [done | done | lia]. Qed.

Lemma main_steps (e : env) (w : world) (prog out : list N)
  (rest : list (list N)) :
  sys_argv e = prog :: out :: rest ->
  (length rest <= 1)%nat ->
  main e w =
  match urlopen e (ENUMS_URL (revision rest)) with
  | None => (Raise (URLError (ENUMS_URL (revision rest))), w)
  | Some enum_text =>
  match read_enums (int_max_str_digits e) enum_text with
  | Raise x => (Raise x, w)
  | Ok enums =>
  match urlopen e (DOMAIN_LISTS_URL (revision rest)) with
  | None => (Raise (URLError (DOMAIN_LISTS_URL (revision rest))), w)
  | Some list_text =>
  match read_domain_lists list_text with
  | Raise x => (Raise x, w)
  | Ok domain_lists =>
  match build_global_domains enums domain_lists with
  | Raise x => (Raise x, w)
  | Ok global_domains => write_file e out (json_dumps global_domains) w
  end end end end end.
Proof.
  intros Hargv Hrest. unfold main, fetch, bind, lift, ret.
  rewrite Hargv.
  assert (usage_ok (length (prog :: out :: rest)) = true) as ->.
  { apply usage_ok_length. simpl. lia. }
  rewrite GIT_REF_args by done.
  change (index (prog :: out :: rest) 1) with (Ok out : result (list N)).
  cbv beta iota delta [negb].
  destruct (urlopen e (ENUMS_URL (revision rest))) as [enum_text|]; [|done].
  destruct (read_enums _ enum_text) as [enums|x]; [|done].
  destruct (urlopen e (DOMAIN_LISTS_URL (revision rest))) as [list_text|];
    [|done].
  destruct (read_domain_lists list_text) as [domain_lists|x]; [|done].
  by destruct (build_global_domains enums domain_lists) as [global_domains|x].
Qed.

Lemma read_enums_Raise (max_str_digits : nat) (text : list N) (x : exn) :
  read_enums max_str_digits text = Raise x -> x = ValueError.
Proof.
  unfold read_enums. intros Hr.
  destruct (forallb (convertible max_str_digits) (split 10 text)) eqn:Hl.
  - by rewrite enums_foldl in Hr.
  - rewrite enums_over_limit in Hr by done. by injection Hr as <-.
Qed.

Lemma build_Raise enums domain_lists acc (x : exn) :
  for_each (global_domains_body enums) domain_lists acc = Raise x ->
  exists key, x = KeyError key /\ key ∈ domain_lists.*1 /\ enums !! key = None.
Proof.
  revert acc. induction domain_lists as [|[name domains] od IH]; intros acc.
  - done.
  - cbn [for_each]. rewrite global_domains_body_eq.
    destruct (enums !! name) as [type|] eqn:E; cbn [rbind].
    + intros (key & -> & Hk & Hn)%IH. exists key. split; [done|].
      split; [|done]. rewrite fmap_cons. by right.
    + intros [= <-]. exists name. split; [done|]. split; [|done].
      rewrite fmap_cons. left.
Qed.

(** ** The layout of the JSON text *)

Lemma text_of_lines_cons (line : list N) (lines : list (list N)) :
  text_of_lines (line :: lines)
  = line ++ concat ((fun x => 10 :: x) <$> lines).
Proof.
  unfold text_of_lines. revert line.
  induction lines as [|x lines IH]; intros line.
  - by rewrite app_nil_r.
  - change (join [10] (line :: x :: lines))
      with (line ++ [10] ++ join [10] (x :: lines)).
    rewrite IH. by rewrite fmap_cons.
Qed.

Lemma with_commas_fmap (p : list N) (items : list (list N)) :
  with_commas ((fun x => p ++ x) <$> items)
  = (fun x => p ++ x) <$> with_commas items.
Proof.
  induction items as [|x items IH]; [done|].
  destruct items as [|y items]; [done|].
  cbn [fmap list_fmap with_commas] in *. rewrite IH.
  by rewrite <- app_assoc.
Qed.

Lemma join_with_commas (sep : list N) (items : list (list N)) :
  items <> [] ->
  sep ++ join (py "," ++ sep) items
  = concat ((fun x => sep ++ x) <$> with_commas items).
Proof.
  induction items as [|x items IH]; [done|]. intros _.
  destruct items as [|y items].
  - cbn. by rewrite app_nil_r.
  - change (join (py "," ++ sep) (x :: y :: items))
      with (x ++ (py "," ++ sep) ++ join (py "," ++ sep) (y :: items)).
    change (with_commas (x :: y :: items))
      with ((x ++ py ",") :: with_commas (y :: items)).
    rewrite fmap_cons. cbn [concat].
    rewrite <- IH by done. by rewrite <- !app_assoc.
Qed.

Lemma encode_list_lines (domains : list (list N)) :
  py "    " ++ quoted (py "domains") ++ py ": "
  ++ encode_seq (py "[") (py "]") 2 (encode_str <$> domains) ++ py ","
  = text_of_lines (domains_lines domains).
Proof.
  destruct domains as [|d domains]; [done|].
  unfold domains_lines. cbn [app]. rewrite text_of_lines_cons.
  unfold encode_seq. rewrite fmap_cons.
  rewrite <- fmap_cons.
  rewrite (app_assoc (newline_indent 3)).
  rewrite (join_with_commas (newline_indent 3)) by done.
  rewrite fmap_app, concat_app. rewrite <- list_fmap_compose.
  rewrite <- !app_assoc. do 3 f_equal.
Qed.

Lemma lines_after_newline (lines : list (list N)) :
  lines <> [] ->
  concat ((fun x => 10 :: x) <$> lines) = 10 :: text_of_lines lines.
Proof.
  destruct lines as [|line lines]; [done|]. intros _.
  by rewrite text_of_lines_cons, fmap_cons.
Qed.

Lemma domains_lines_nonempty domains : domains_lines domains <> [].
Proof. by destruct domains. Qed.

Lemma encode_record_text (type : Z) (domains : list (list N)) :
  py "  " ++ encode_dict 1 (record type domains)
  = record_text (type, domains).
Proof.
  unfold record_text. cbn [fst snd app]. rewrite text_of_lines_cons.
  rewrite fmap_cons, fmap_app. cbn [concat]. rewrite concat_app.
  rewrite lines_after_newline by apply domains_lines_nonempty.
  rewrite <- encode_list_lines.
  unfold encode_dict, record, encode_seq.
  cbn [fmap list_fmap fst snd join encode_val concat app].
  rewrite <- !app_assoc. reflexivity.
Qed.

Lemma json_dumps_document (recs : list (Z * list (list N))) :
  json_dumps ((fun rec => record (fst rec) (snd rec)) <$> recs)
  = document recs.
Proof.
  destruct recs as [|rec recs]; [done|].
  unfold document, json_dumps, encode_seq. cbn [app]. rewrite text_of_lines_cons.
  rewrite !fmap_cons. rewrite <- !fmap_cons.
  rewrite (app_assoc (newline_indent 1)).
  rewrite (join_with_commas (newline_indent 1)) by done.
  rewrite fmap_app, concat_app.
  assert (record_text <$> (rec :: recs)
          = (fun x => py "  " ++ x)
              <$> (encode_dict 1
                     <$> ((fun rec => record (fst rec) (snd rec))
                            <$> (rec :: recs)))) as ->.
  { rewrite <- !list_fmap_compose. apply list_fmap_ext.
    intros i [type domains] _. symmetry. apply encode_record_text. }
  rewrite with_commas_fmap, <- list_fmap_compose.
  rewrite <- ?app_assoc. reflexivity.
Qed.

Lemma build_records enums (domain_lists : list (list N * list (list N)))
  (global_domains : list (list (list N * pyval))) :
  build_global_domains enums domain_lists = Ok global_domains ->
  exists recs : list (Z * list (list N)),
    global_domains = (fun rec => record (fst rec) (snd rec)) <$> recs
    /\ recs.*2 = domain_lists.*2.
Proof.
  intros (new & -> & Hnew)%build_Ok. cbn [app].
  induction Hnew as [|[name domains] rec od new (type & _ & ->) _ IH].
  - by exists [].
  - destruct IH as (recs & -> & Hrecs). exists ((type, domains) :: recs).
    split; [done|]. rewrite !fmap_cons. cbn [snd]. by rewrite Hrecs.
Qed.

(** X1. A run that succeeds: called with an output file and at most one
    more argument, the script fetches both texts from the revision given
    by that argument, [main] when there is none; when extraction and merge
    of the two texts give the records, the output file can be opened and
    the write does not fail, the run ends normally (exit status 0) and the
    output file holds the JSON text of the records, whatever it held
    before: an opening bracket, the records one after the other, each on
    its lines (the type, the domains one per line, the excluded flag) and
    followed by a comma but the last, and a closing bracket. *)
Theorem run_writes_output (e : env) (w : world) (prog out : list N)
  (rest : list (list N)) (enum_text list_text : list N)
  (global_domains : list (list (list N * pyval))) :
  sys_argv e = prog :: out :: rest ->
  (length rest <= 1)%nat ->
  urlopen e (py "https://github.com/bitwarden/server/raw/" ++ revision rest
             ++ py "/src/Core/Enums/GlobalEquivalentDomainsType.cs")
  = Some enum_text ->
  urlopen e (py "https://github.com/bitwarden/server/raw/" ++ revision rest
             ++ py "/src/Core/Utilities/StaticStore.cs")
  = Some list_text ->
  pipeline (int_max_str_digits e) enum_text list_text = Ok global_domains ->
  writable e out = true ->
  write_error e out = None ->
  fst (main e w) = Ok tt
  /\ exit_status (fst (main e w)) = 0%Z
  /\ files (snd (main e w)) !! out = Some (json_dumps global_domains)
  /\ exists recs : list (Z * list (list N)),
       global_domains = (fun rec => record (fst rec) (snd rec)) <$> recs
       /\ files (snd (main e w)) !! out = Some (document recs).
Proof.
  intros Hargv Hrest Henums Hlists Hp Hw Hwrite.
  assert (main e w = (Ok tt, written w out global_domains)) as Hmain.
  { rewrite (main_steps e w prog out rest) by done.
    unfold ENUMS_URL, DOMAIN_LISTS_URL, BASE_URL. rewrite <- !app_assoc.
    rewrite Henums. unfold pipeline in Hp.
    destruct (read_enums _ enum_text) as [enums|x]; [|done].
    rewrite Hlists. cbn [rbind] in Hp.
    destruct (read_domain_lists list_text) as [domain_lists|x]; [|done].
    cbn [rbind] in Hp. rewrite Hp. unfold write_file.
    by rewrite Hw, Hwrite. }
  assert (exists recs : list (Z * list (list N)),
            global_domains = (fun rec => record (fst rec) (snd rec)) <$> recs)
    as [recs Hrecs].
  { unfold pipeline in Hp.
    destruct (read_enums _ enum_text) as [enums|x]; [|done].
    cbn [rbind] in Hp.
    destruct (read_domain_lists list_text) as [domain_lists|x]; [|done].
    cbn [rbind] in Hp.
    destruct (build_records _ _ _ Hp) as (recs & Hrecs & _). by exists recs. }
  rewrite Hmain. split; [done|]. split; [done|].
  split; [apply lookup_insert_eq|].
  exists recs. split; [done|]. cbn [snd written files].
  by rewrite lookup_insert_eq, Hrecs, json_dumps_document.
Qed.

Lemma run_writes_output_witness :
  fst (main (scenario
               [py "global_domains.py"; py "out.json"; py "v2024.1.0"]
               (scenario_remote (py "v2024.1.0")) true) empty_world)
  = Ok tt
  /\ exit_status
       (fst (main (scenario
                     [py "global_domains.py"; py "out.json"; py "v2024.1.0"]
                     (scenario_remote (py "v2024.1.0")) true) empty_world))
     = 0%Z
  /\ files
       (snd (main (scenario
                     [py "global_domains.py"; py "out.json"; py "v2024.1.0"]
                     (scenario_remote (py "v2024.1.0")) true) empty_world))
     !! py "out.json" = Some scenario_json
  /\ exists recs : list (Z * list (list N)),
       scenario_records = (fun rec => record (fst rec) (snd rec)) <$> recs
       /\ files
            (snd (main (scenario
                          [py "global_domains.py"; py "out.json";
                           py "v2024.1.0"]
                          (scenario_remote (py "v2024.1.0")) true)
                    empty_world))
          !! py "out.json" = Some (document recs).
Proof.
  change scenario_json with (json_dumps scenario_records).
  apply (run_writes_output
           (scenario [py "global_domains.py"; py "out.json"; py "v2024.1.0"]
              (scenario_remote (py "v2024.1.0")) true)
           empty_world (py "global_domains.py") (py "out.json")
           [py "v2024.1.0"] scenario_enum_text scenario_list_text
           scenario_records).
  - reflexivity.
  - simpl. lia.
  - vm_compute. reflexivity.
  - vm_compute. reflexivity.
  - vm_compute. reflexivity.
  - reflexivity.
  - reflexivity.
Defined.

(** X2. The outcomes of a run: called with an output file and at most one
    more argument, the script ends in one of these ways.  Before the output
    file is opened: a failed fetch of one of the two texts ([URLError]
    stands for whatever opening, reading or decoding raises), [ValueError]
    from the conversion of an integer, or [KeyError] for a name of the list
    text, nothing being changed.  With both texts fetched and merged: the
    output file cannot be opened, [OSError] and nothing changed; the write
    fails, [OSError] and the output file holds a start of the JSON text,
    possibly none of it; or the run ends normally and the output file holds
    the JSON text. *)
Theorem run_outcomes (e : env) (w : world) (prog out : list N)
  (rest : list (list N)) :
  sys_argv e = prog :: out :: rest ->
  (length rest <= 1)%nat ->
  (exists enum_text list_text global_domains,
     urlopen e (ENUMS_URL (revision rest)) = Some enum_text
     /\ urlopen e (DOMAIN_LISTS_URL (revision rest)) = Some list_text
     /\ pipeline (int_max_str_digits e) enum_text list_text
        = Ok global_domains
     /\ ((fst (main e w) = Ok tt
          /\ files (snd (main e w)) !! out = Some (json_dumps global_domains))
         \/ (exists n,
               fst (main e w) = Raise (OSError out)
               /\ files (snd (main e w)) !! out
                  = Some (take n (json_dumps global_domains)))
         \/ main e w = (Raise (OSError out), w)))
  \/ main e w = (Raise (URLError (ENUMS_URL (revision rest))), w)
  \/ main e w = (Raise ValueError, w)
  \/ main e w = (Raise (URLError (DOMAIN_LISTS_URL (revision rest))), w)
  \/ (exists key, main e w = (Raise (KeyError key), w)).
Proof.
  intros Hargv Hrest. rewrite (main_steps e w prog out rest) by done.
  destruct (urlopen e (ENUMS_URL (revision rest))) as [enum_text|];
    [|by auto 10].
  destruct (read_enums _ enum_text) as [enums|x] eqn:Hre.
  2:{ apply read_enums_Raise in Hre as ->. by auto 10. }
  destruct (urlopen e (DOMAIN_LISTS_URL (revision rest))) as [list_text|];
    [|by auto 10].
  destruct (read_domain_lists list_text) as [domain_lists|x] eqn:Hrl.
  2:{ by rewrite read_domain_lists_foldl in Hrl. }
  destruct (build_global_domains enums domain_lists)
    as [global_domains|x] eqn:Hb.
  2:{ apply build_Raise in Hb as (key & -> & _).
      do 4 right. by exists key. }
  left. exists enum_text, list_text, global_domains.
  split; [done|]. split; [done|]. split.
  { unfold pipeline. by rewrite Hre, Hrl. }
  unfold write_file. destruct (writable e out); [|by auto].
  destruct (write_error e out) as [n|].
  - right; left. exists n. split; [done|]. apply lookup_insert_eq.
  - left. split; [done|]. apply lookup_insert_eq.
Qed.

Lemma run_outcomes_witness :
  (exists enum_text list_text global_domains,
     urlopen (failing_write
                (scenario [py "global_domains.py"; py "out.json"]
                   (scenario_remote (py "main")) true) 5)
       (ENUMS_URL (revision [])) = Some enum_text
     /\ urlopen (failing_write
                   (scenario [py "global_domains.py"; py "out.json"]
                      (scenario_remote (py "main")) true) 5)
          (DOMAIN_LISTS_URL (revision [])) = Some list_text
     /\ pipeline
          (int_max_str_digits
             (failing_write
                (scenario [py "global_domains.py"; py "out.json"]
                   (scenario_remote (py "main")) true) 5))
          enum_text list_text
        = Ok global_domains
     /\ ((fst (main (failing_write
                       (scenario [py "global_domains.py"; py "out.json"]
                          (scenario_remote (py "main")) true) 5)
                 empty_world) = Ok tt
          /\ files (snd (main (failing_write
                                 (scenario
                                    [py "global_domains.py"; py "out.json"]
                                    (scenario_remote (py "main")) true) 5)
                           empty_world))
             !! py "out.json" = Some (json_dumps global_domains))
         \/ (exists n,
               fst (main (failing_write
                            (scenario [py "global_domains.py"; py "out.json"]
                               (scenario_remote (py "main")) true) 5)
                      empty_world) = Raise (OSError (py "out.json"))
               /\ files (snd (main (failing_write
                                      (scenario
                                         [py "global_domains.py";
                                          py "out.json"]
                                         (scenario_remote (py "main")) true)
                                      5)
                                empty_world))
                  !! py "out.json"
                  = Some (take n (json_dumps global_domains)))
         \/ main (failing_write
                    (scenario [py "global_domains.py"; py "out.json"]
                       (scenario_remote (py "main")) true) 5)
              empty_world
            = (Raise (OSError (py "out.json")), empty_world)))
  \/ main (failing_write
             (scenario [py "global_domains.py"; py "out.json"]
                (scenario_remote (py "main")) true) 5)
       empty_world
     = (Raise (URLError (ENUMS_URL (revision []))), empty_world)
  \/ main (failing_write
             (scenario [py "global_domains.py"; py "out.json"]
                (scenario_remote (py "main")) true) 5)
       empty_world
     = (Raise ValueError, empty_world)
  \/ main (failing_write
             (scenario [py "global_domains.py"; py "out.json"]
                (scenario_remote (py "main")) true) 5)
       empty_world
     = (Raise (URLError (DOMAIN_LISTS_URL (revision []))), empty_world)
  \/ (exists key,
        main (failing_write
                (scenario [py "global_domains.py"; py "out.json"]
                   (scenario_remote (py "main")) true) 5)
          empty_world
        = (Raise (KeyError key), empty_world)).
Proof.
  apply (run_outcomes
           (failing_write
              (scenario [py "global_domains.py"; py "out.json"]
                 (scenario_remote (py "main")) true) 5)
           empty_world (py "global_domains.py") (py "out.json") []).
  - reflexivity.
  - simpl. lia.
Defined.

(** A write that fails with five characters in the file: the run ends
    with [OSError] and the output file holds the opening bracket, the
    newline and three characters more. *)
Example run_write_fails :
  main (failing_write
          (scenario [py "global_domains.py"; py "out.json"]
             (scenario_remote (py "main")) true) 5)
    {| stdout := []; files := {[py "out.json" := py "old"]} |}
  = (Raise (OSError (py "out.json")),
     {| stdout := []; files := {[py "out.json" := py "[" ++ [10] ++ py "  {"]} |}).
Proof. vm_compute. reflexivity. Qed.

(** X3. Which error a run ends with: the script fetches and reads the enum
    text before it asks for the list text, merges before it opens the
    output file, and stops at the first failure.  So a failed fetch of the
    enum text is reported whatever else would fail; an integer beyond the
    interpreter's limit is reported even when the list text cannot be
    fetched; a failed fetch of the list text is reported once the enum text
    has been read; a name without enum entry is reported even when the
    output file cannot be opened; and the output file is only found not to
    be writable when everything else went well.  In each case nothing is
    printed and no file is changed. *)
Theorem run_error_order (e : env) (w : world) (prog out : list N)
  (rest : list (list N)) :
  sys_argv e = prog :: out :: rest ->
  (length rest <= 1)%nat ->
  (urlopen e (ENUMS_URL (revision rest)) = None ->
   main e w = (Raise (URLError (ENUMS_URL (revision rest))), w))
  /\ (forall enum_text,
        urlopen e (ENUMS_URL (revision rest)) = Some enum_text ->
        forallb (convertible (int_max_str_digits e)) (split 10 enum_text)
        = false ->
        main e w = (Raise ValueError, w))
  /\ (forall enum_text enums,
        urlopen e (ENUMS_URL (revision rest)) = Some enum_text ->
        read_enums (int_max_str_digits e) enum_text = Ok enums ->
        urlopen e (DOMAIN_LISTS_URL (revision rest)) = None ->
        main e w = (Raise (URLError (DOMAIN_LISTS_URL (revision rest))), w))
  /\ (forall enum_text enums list_text domain_lists x,
        urlopen e (ENUMS_URL (revision rest)) = Some enum_text ->
        read_enums (int_max_str_digits e) enum_text = Ok enums ->
        urlopen e (DOMAIN_LISTS_URL (revision rest)) = Some list_text ->
        read_domain_lists list_text = Ok domain_lists ->
        build_global_domains enums domain_lists = Raise x ->
        main e w = (Raise x, w)
        /\ exists key, x = KeyError key /\ key ∈ domain_lists.*1
                       /\ enums !! key = None)
  /\ (forall enum_text list_text global_domains,
        urlopen e (ENUMS_URL (revision rest)) = Some enum_text ->
        urlopen e (DOMAIN_LISTS_URL (revision rest)) = Some list_text ->
        pipeline (int_max_str_digits e) enum_text list_text
        = Ok global_domains ->
        writable e out = false ->
        main e w = (Raise (OSError out), w)).
Proof.
  intros Hargv Hrest. rewrite (main_steps e w prog out rest) by done.
  split; [|split; [|split; [|split]]].
  - by intros ->.
  - intros enum_text -> Hl. unfold read_enums.
    by rewrite enums_over_limit.
  - by intros enum_text enums -> -> ->.
  - intros enum_text enums list_text domain_lists x -> -> -> -> Hb.
    rewrite Hb. split; [done|]. by apply build_Raise in Hb.
  - intros enum_text list_text global_domains -> -> Hp Hw.
    unfold pipeline in Hp.
    destruct (read_enums _ enum_text) as [enums|x]; [|done].
    cbn [rbind] in Hp.
    destruct (read_domain_lists list_text) as [domain_lists|x]; [|done].
    cbn [rbind] in Hp. rewrite Hp. unfold write_file. by rewrite Hw.
Qed.

Lemma run_error_order_witness :
  main (scenario [py "global_domains.py"; py "out.json"]
          [(ENUMS_URL (py "main"), long_enum_line)] false) empty_world
  = (Raise ValueError, empty_world).
Proof.
  apply (proj1 (proj2 (run_error_order
                         (scenario [py "global_domains.py"; py "out.json"]
                            [(ENUMS_URL (py "main"), long_enum_line)] false)
                         empty_world (py "global_domains.py") (py "out.json")
                         [] eq_refl (Nat.le_0_l 1)))
           long_enum_line).
  - vm_compute. reflexivity.
  - vm_compute. reflexivity.
Defined.

(** ** The JSON text *)

Lemma plain_uint (d : Decimal.uint) :
  forallb is_plain (py (NilEmpty.string_of_uint d)) = true.
Proof. induction d; simpl; try done; by rewrite IHd. Qed.

Lemma plain_encode_int z : forallb is_plain (encode_int z) = true.
Proof.
  unfold encode_int. destruct (Z.to_int z) as [d|d]; simpl.
  - destruct d; try done; apply (plain_uint (_ d)).
  - destruct d; try done; apply (plain_uint (_ d)).
Qed.

Lemma plain_hex_digit d : d < 16 -> is_plain (hex_digit d) = true.
Proof.
  intros Hd. unfold hex_digit, is_plain, in_range.
  destruct (N.ltb_spec d 10); apply orb_true_iff; right;
    apply andb_true_iff; split; apply N.leb_le; lia.
Qed.

Lemma plain_escape_u n : forallb is_plain (escape_u n) = true.
Proof.
  unfold escape_u, hex4. cbn [py forallb app].
  change (forallb is_plain (py "\u" ++ ?l)) with (forallb is_plain l).
  cbn [forallb].
  rewrite !plain_hex_digit by (by apply N.mod_lt). done.
Qed.

Lemma plain_escape_char c : forallb is_plain (escape_char c) = true.
Proof.
  unfold escape_char.
  repeat (match goal with |- context [if ?b then _ else _] =>
                            destruct b eqn:? end; try done).
  - cbn [forallb]. unfold is_plain. by rewrite Heqb6, orb_true_r.
  - apply plain_escape_u.
  - rewrite forallb_app, !plain_escape_u. done.
Qed.

Lemma plain_concat (items : list (list N)) :
  Forall (fun item => forallb is_plain item = true) items ->
  forallb is_plain (concat items) = true.
Proof.
  induction 1 as [|item items Hitem _ IH]; [done|].
  cbn [concat]. by rewrite forallb_app, Hitem, IH.
Qed.

Lemma plain_encode_str s : forallb is_plain (encode_str s) = true.
Proof.
  unfold encode_str. cbn [forallb]. rewrite forallb_app. cbn [forallb].
  rewrite plain_concat; [done|]. apply Forall_fmap, Forall_forall.
  intros c _. apply plain_escape_char.
Qed.

Lemma plain_newline_indent level :
  forallb is_plain (newline_indent level) = true.
Proof.
  unfold newline_indent. cbn [forallb]. rewrite plain_concat; [done|].
  apply Forall_forall. by intros item ->%elem_of_replicate_inv.
Qed.

Lemma plain_join sep (items : list (list N)) :
  forallb is_plain sep = true ->
  Forall (fun item => forallb is_plain item = true) items ->
  forallb is_plain (join sep items) = true.
Proof.
  intros Hsep. induction 1 as [|item items Hitem Hitems IH]; [done|].
  destruct items as [|item' items]; [done|].
  change (join sep (item :: item' :: items))
    with (item ++ sep ++ join sep (item' :: items)).
  by rewrite !forallb_app, Hitem, Hsep, IH.
Qed.

Lemma plain_encode_seq opening closing level (items : list (list N)) :
  forallb is_plain opening = true -> forallb is_plain closing = true ->
  Forall (fun item => forallb is_plain item = true) items ->
  forallb is_plain (encode_seq opening closing level items) = true.
Proof.
  intros Ho Hc Hitems. unfold encode_seq.
  destruct items as [|item items]; [by rewrite forallb_app, Ho, Hc|].
  rewrite !forallb_app, Ho, Hc, !plain_newline_indent.
  rewrite plain_join; [done | | done].
  change (forallb is_plain (py "," ++ newline_indent (S level)))
    with (forallb is_plain (newline_indent (S level))).
  apply plain_newline_indent.
Qed.

Lemma plain_encode_val level v : forallb is_plain (encode_val level v) = true.
Proof.
  destruct v as [z|l|[|]]; cbn [encode_val]; [|  |done|done].
  - apply plain_encode_int.
  - apply plain_encode_seq; [done|done|].
    apply Forall_fmap, Forall_forall. intros d _. apply plain_encode_str.
Qed.

Lemma plain_encode_dict level (d : list (list N * pyval)) :
  forallb is_plain (encode_dict level d) = true.
Proof.
  unfold encode_dict. apply plain_encode_seq; [done|done|].
  apply Forall_fmap, Forall_forall. intros [k v] _.
  cbv beta. cbn [fst snd compose].
  rewrite !forallb_app, plain_encode_str, plain_encode_val. done.
Qed.

(** X4. The output is plain ASCII: whatever characters the names and
    domains hold, the JSON text consists of printable ASCII characters and
    newlines only (everything else is written as an escape), and it does
    not end with a newline: its last character is the closing bracket. *)
Theorem json_dumps_plain (global_domains : list (list (list N * pyval))) :
  forallb is_plain (json_dumps global_domains) = true
  /\ last (json_dumps global_domains) = Some 93.
Proof.
  split.
  - unfold json_dumps. apply plain_encode_seq; [done|done|].
    apply Forall_fmap, Forall_forall. intros d _. apply plain_encode_dict.
  - unfold json_dumps, encode_seq.
    destruct (encode_dict 1 <$> global_domains) as [|item items]; [done|].
    rewrite !app_assoc. apply last_snoc.
Qed.

(** ** Where the entries come from *)

Lemma last_value_elem {V} (l : list (list N * V)) (k : list N) (v : V) :
  last_value k l = Some v -> (k, v) ∈ l.
Proof.
  induction l as [|[k' v'] l IH]; [done|]. cbn [last_value].
  destruct (last_value k l) as [v0|].
  - intros [= <-]. right. by apply IH.
  - destruct (decide (k' = k)) as [->|]; [|done]. intros [= <-]. left.
Qed.

Lemma enum_line_name name digits ln :
  enum_line name digits ln -> is_name name.
Proof. intros (prefix & rest & _ & Hp & _). by destruct Hp. Qed.

Lemma domain_list_line_name name span ln :
  domain_list_line name span ln ->
  is_name name /\ span <> [] /\ forallb not_rbrace span = true.
Proof. intros (prefix & rest & _ & Hp). by destruct Hp. Qed.

Lemma split_forallb (p : N -> bool) sep s :
  forallb p s = true ->
  Forall (fun frag => forallb p frag = true) (split sep s).
Proof.
  induction s as [|c s IH]; cbn [split forallb]; [by constructor|].
  intros [Hc Hs]%andb_true_iff. specialize (IH Hs).
  destruct (c =? sep); [by constructor|].
  destruct (split sep s) as [|w ws]; [by constructor; [simpl; rewrite Hc|]|].
  inversion IH as [|? ? Hw Hws]; subst. constructor; [|done].
  simpl. by rewrite Hc.
Qed.

Lemma stripped_forallb (p : N -> bool) chars frag d :
  stripped chars frag d -> forallb p frag = true -> forallb p d = true.
Proof.
  intros (l & r & -> & _). rewrite !forallb_app.
  by intros [_ [Hd _]%andb_true_iff]%andb_true_iff.
Qed.

Lemma strip_clean span frag :
  forallb not_rbrace span = true -> frag ∈ split 44 span ->
  is_clean (strip strip_chars frag).
Proof.
  intros Hspan Hfrag.
  pose proof (strip_stripped strip_chars frag) as Hs.
  split.
  - apply (stripped_forallb _ _ _ _ Hs).
    assert (Forall (fun frag => forallb not_rbrace frag = true)
              (split 44 span)) as Hb by by apply split_forallb.
    pose proof (split_no_sep 44 span) as Hc.
    rewrite Forall_forall in Hb, Hc.
    specialize (Hb _ Hfrag). specialize (Hc _ Hfrag).
    rewrite forallb_forall in Hb, Hc. apply forallb_forall. intros c Hin.
    specialize (Hb c Hin). specialize (Hc c Hin).
    unfold not_rbrace in Hb. by rewrite Hb, Hc.
  - by destruct Hs as (l & r & _ & _ & _ & Hh & Ht).
Qed.

(** X5. Every entry of the enum mapping comes from a line of the text: its
    name is the name of an enum line of the text and its value the integer
    of that line; so every name is a non-empty word of letters, digits and
    underscores and no value is negative. *)
Theorem enums_entries (max_str_digits : nat) (text : list N)
  (enums : gmap (list N) Z) (name : list N) (value : Z) :
  read_enums max_str_digits text = Ok enums ->
  enums !! name = Some value ->
  (exists ln digits,
     ln ∈ split 10 text /\ enum_line name digits ln
     /\ value = decimal digits)
  /\ name <> [] /\ forallb is_word name = true /\ (0 <= value)%Z.
Proof.
  intros [_ ->]%read_enums_Ok. rewrite read_enums_lookup.
  intros Hin%last_value_elem.
  apply list_elem_of_omap in Hin as (ln & Hln & He).
  unfold enum_entry in He.
  destruct (scan_enum ln) as [[n digits]|] eqn:Hs; [|done].
  injection He as -> <-. apply scan_enum_line in Hs.
  destruct (enum_line_name _ _ _ Hs) as [Hne Hw].
  split; [by exists ln, digits|]. split; [done|]. split; [done|].
  apply decimal_nonneg.
Qed.

Lemma enums_entries_witness :
  (exists ln digits,
     ln ∈ split 10 duplicate_enum_text /\ enum_line (py "Foo") digits ln
     /\ 7%Z = decimal digits)
  /\ py "Foo" <> [] /\ forallb is_word (py "Foo") = true /\ (0 <= 7)%Z.
Proof.
  apply (enums_entries 4300 duplicate_enum_text
           (<[py "Foo" := 7%Z]> (<[py "Bar" := 1%Z]> ∅))).
  - vm_compute. reflexivity.
  - reflexivity.
Defined.

(** X6. Every item of the domain list mapping comes from a line of the
    text: its name is the name of a domain list line of the text and its
    list the stripped fragments of that line's span.  So every name is a
    non-empty word, no list is empty, and no domain holds a comma or a
    closing brace, or starts or ends with a space or a double quote. *)
Theorem domain_lists_entries (text : list N)
  (domain_lists : list (list N * list (list N))) (i : nat)
  (name : list N) (domains : list (list N)) :
  read_domain_lists text = Ok domain_lists ->
  domain_lists !! i = Some (name, domains) ->
  (exists ln span,
     ln ∈ split 10 text /\ domain_list_line name span ln
     /\ domains = strip (py " " ++ [dq]) <$> split 44 span)
  /\ name <> [] /\ forallb is_word name = true
  /\ domains <> [] /\ Forall is_clean domains.
Proof.
  rewrite read_domain_lists_foldl. intros [= <-] Hi.
  apply (od_get_lookup _ _ _ _ (read_domain_lists_NoDup _)) in Hi.
  rewrite read_domain_lists_get in Hi.
  apply last_value_elem, list_elem_of_omap in Hi as (ln & Hln & He).
  unfold domain_list_entry in He.
  destruct (scan_domain_list ln) as [[n span]|] eqn:Hs; [|done].
  injection He as -> <-. apply scan_domain_list_line in Hs.
  destruct (domain_list_line_name _ _ _ Hs) as ([Hne Hw] & Hspan & Hb).
  split; [by exists ln, span|]. split; [done|]. split; [done|]. split.
  - pose proof (split_nonempty 44 span). by destruct (split 44 span).
  - apply Forall_fmap, Forall_forall. intros frag Hfrag.
    by apply (strip_clean span).
Qed.

Lemma domain_lists_entries_witness :
  (exists ln span,
     ln ∈ split 10 duplicate_list_text
     /\ domain_list_line (py "Foo") span ln
     /\ [py "y.com"; py "w.com"] = strip (py " " ++ [dq]) <$> split 44 span)
  /\ py "Foo" <> [] /\ forallb is_word (py "Foo") = true
  /\ [py "y.com"; py "w.com"] <> []
  /\ Forall is_clean [py "y.com"; py "w.com"].
Proof.
  apply (domain_lists_entries duplicate_list_text
           [(py "Foo", [py "y.com"; py "w.com"]); (py "Bar", [py "z.com"])]
           0).
  - vm_compute. reflexivity.
  - reflexivity.
Defined.

(** ** Indentation *)

Lemma drop_while_blanks (p : N -> bool) ws s :
  forallb p ws = true -> drop_while p (ws ++ s) = drop_while p s.
Proof.
  induction ws as [|c ws IH]; [done|]. cbn [forallb app drop_while].
  intros [-> Hws]%andb_true_iff. by apply IH.
Qed.

(** X7. Indentation does not matter: blanks put in front of a line change
    nothing to what either loop does with that line. *)
Theorem indentation_ignored (max_str_digits : nat) (ws ln : list N)
  (enums : gmap (list N) Z)
  (domain_lists : list (list N * list (list N))) :
  forallb is_space ws = true ->
  enums_body max_str_digits enums (ws ++ ln)
  = enums_body max_str_digits enums ln
  /\ domain_lists_body domain_lists (ws ++ ln)
     = domain_lists_body domain_lists ln.
Proof.
  intros Hws. unfold enums_body, domain_lists_body.
  rewrite !ENUM_RE_scan, !DOMAIN_LIST_RE_scan.
  unfold scan_enum, scan_domain_list. by rewrite !drop_while_blanks.
Qed.

Lemma indentation_ignored_witness :
  enums_body 4300 ∅ ([9; 32; 160] ++ py "Foo = 3,")
  = enums_body 4300 ∅ (py "Foo = 3,")
  /\ domain_lists_body [] ([9; 32; 160] ++ py "Foo = 3,")
     = domain_lists_body [] (py "Foo = 3,").
Proof.
  apply (indentation_ignored 4300 [9; 32; 160]). reflexivity.
Defined.

(** ** The size of the output *)

Lemma add_key_length (l seen : list (list N)) :
  (length (foldl (fun seen k => if decide (k ∈ seen) then seen
                                else seen ++ [k]) seen l)
   <= length seen + length l)%nat.
Proof.
  revert seen. induction l as [|k l IH]; intros seen; simpl; [lia|].
  case_decide.
  - specialize (IH seen). lia.
  - specialize (IH (seen ++ [k])). rewrite length_app in IH. simpl in IH. lia.
Qed.

Lemma omap_length {A B} (f : A -> option B) (l : list A) :
  (length (omap f l) <= length l)%nat.
Proof.
  induction l as [|x l IH]; [done|].
  change (omap f (x :: l))
    with (match f x with Some y => y :: omap f l | None => omap f l end).
  destruct (f x); cbn [length]; lia.
Qed.

(** X8. The size of the output: the output holds one record for each
    different name of the list text, never two records for one name, and
    so no more records than the list text has lines. *)
Theorem output_size (list_text : list N) (enums : gmap (list N) Z)
  (domain_lists : list (list N * list (list N)))
  (global_domains : list (list (list N * pyval))) :
  read_domain_lists list_text = Ok domain_lists ->
  build_global_domains enums domain_lists = Ok global_domains ->
  length global_domains = length domain_lists
  /\ NoDup domain_lists.*1
  /\ (forall name,
        name ∈ domain_lists.*1
        <-> exists span ln,
              ln ∈ split 10 list_text /\ domain_list_line name span ln)
  /\ (length global_domains <= length (split 10 list_text))%nat.
Proof.
  rewrite read_domain_lists_foldl. intros [= <-] Hb.
  apply build_Ok in Hb as (new & -> & Hnew). apply Forall2_length in Hnew.
  simpl. rewrite <- Hnew.
  split; [done|]. split; [apply read_domain_lists_NoDup|]. split.
  - intros name. rewrite read_domain_lists_keys, elem_of_first_occurrences.
    rewrite list_elem_of_fmap. split.
    + intros ([n domains] & -> & (ln & Hln & He)%list_elem_of_omap).
      unfold domain_list_entry in He.
      destruct (scan_domain_list ln) as [[n' span]|] eqn:Hs; [|done].
      injection He as -> <-. exists span, ln. split; [done|].
      by apply scan_domain_list_line.
    + intros (span & ln & Hln & Hl%scan_domain_list_iff).
      exists (name, strip strip_chars <$> split 44 span). split; [done|].
      apply list_elem_of_omap. exists ln. split; [done|].
      unfold domain_list_entry. by rewrite Hl.
  - rewrite <- (length_fmap fst), read_domain_lists_keys.
    pose proof (add_key_length
                  (omap domain_list_entry (split 10 list_text)).*1 []) as H1.
    pose proof (omap_length domain_list_entry (split 10 list_text)) as H2.
    unfold first_occurrences. rewrite length_fmap in H1. simpl in H1. lia.
Qed.

Lemma output_size_witness :
  length [record 7 [py "y.com"; py "w.com"]; record 1 [py "z.com"]]
  = length [(py "Foo", [py "y.com"; py "w.com"]); (py "Bar", [py "z.com"])]
  /\ NoDup [(py "Foo", [py "y.com"; py "w.com"]); (py "Bar", [py "z.com"])].*1
  /\ (forall name,
        name ∈ [(py "Foo", [py "y.com"; py "w.com"]);
                (py "Bar", [py "z.com"])].*1
        <-> exists span ln,
              ln ∈ split 10 duplicate_list_text
              /\ domain_list_line name span ln)
  /\ (length [record 7 [py "y.com"; py "w.com"]; record 1 [py "z.com"]]
      <= length (split 10 duplicate_list_text))%nat.
Proof.
  apply (output_size duplicate_list_text
           (<[py "Foo" := 7%Z]> (<[py "Bar" := 1%Z]> ∅))).
  - vm_compute. reflexivity.
  - vm_compute. reflexivity.
Defined.

(** ** The enum entries the merge reads *)

Lemma build_agree (enums enums' : gmap (list N) Z)
  (domain_lists : list (list N * list (list N)))
  (acc : list (list (list N * pyval))) :
  (forall name, name ∈ domain_lists.*1 -> enums !! name = enums' !! name) ->
  for_each (global_domains_body enums) domain_lists acc
  = for_each (global_domains_body enums') domain_lists acc.
Proof.
  revert acc. induction domain_lists as [|[name domains] od IH];
    intros acc Hagree; [done|].
  cbn [for_each]. rewrite !global_domains_body_eq.
  rewrite <- (Hagree name) by (rewrite fmap_cons; left).
  destruct (enums !! name) as [type|]; [|done]. cbn [rbind].
  apply IH. intros n Hn. apply Hagree. rewrite fmap_cons. by right.
Qed.

(** X9. The merge reads the enum mapping at the names of the list text
    only: two enum mappings that give these names the same values (or both
    none) give the same output, or the same error; enum entries no domain
    list refers to do not show in the output. *)
Theorem merge_reads_listed_names (enums enums' : gmap (list N) Z)
  (domain_lists : list (list N * list (list N))) :
  (forall name, name ∈ domain_lists.*1 -> enums !! name = enums' !! name) ->
  build_global_domains enums domain_lists
  = build_global_domains enums' domain_lists.
Proof. apply build_agree. Qed.

Lemma merge_reads_listed_names_witness :
  build_global_domains (<[py "Foo" := 7%Z]> (<[py "Unused" := 9%Z]> ∅))
    [(py "Foo", [py "x.com"])]
  = build_global_domains (<[py "Foo" := 7%Z]> ∅) [(py "Foo", [py "x.com"])].
Proof.
  apply (merge_reads_listed_names
           (<[py "Foo" := 7%Z]> (<[py "Unused" := 9%Z]> ∅))
           (<[py "Foo" := 7%Z]> ∅) [(py "Foo", [py "x.com"])]).
  intros name ->%list_elem_of_singleton. reflexivity.
Defined.

(** ** No domain list *)

Lemma domain_lists_foldl_none (lines : list (list N))
  (domain_lists : list (list N * list (list N))) :
  Forall (fun ln => scan_domain_list ln = None) lines ->
  foldl domain_lists_step domain_lists lines = domain_lists.
Proof.
  induction 1 as [|ln lines Hln _ IH]; [done|]. cbn [foldl].
  unfold domain_lists_step at 2, domain_list_entry. by rewrite Hln.
Qed.

(** X10. A list text without domain list line, the empty text for one,
    gives an empty domain list mapping.  The output is then empty for
    every enum text the enum loop reads to its end, whatever entries it
    holds, and the run fails with the error of the enum loop for the
    others; the JSON text of the empty output is the two characters of an
    empty array. *)
Theorem no_domain_list_line (list_text : list N) :
  (forall ln name span,
     ln ∈ split 10 list_text -> ~ domain_list_line name span ln) ->
  read_domain_lists list_text = Ok []
  /\ (forall (max_str_digits : nat) (enum_text : list N),
        pipeline max_str_digits enum_text list_text
        = match read_enums max_str_digits enum_text with
          | Ok _ => Ok []
          | Raise x => Raise x
          end)
  /\ json_dumps [] = py "[]".
Proof.
  intros Hno.
  assert (read_domain_lists list_text = Ok []) as Hrl.
  { rewrite read_domain_lists_foldl. f_equal.
    apply domain_lists_foldl_none, Forall_forall. intros ln Hln.
    destruct (scan_domain_list ln) as [[name span]|] eqn:Hs; [|done].
    by apply scan_domain_list_line, (Hno ln) in Hs. }
  split; [done|]. split; [|done].
  intros max_str_digits enum_text. unfold pipeline. rewrite Hrl.
  by destruct (read_enums max_str_digits enum_text).
Qed.

Lemma no_domain_list_line_witness :
  read_domain_lists [] = Ok []
  /\ (forall (max_str_digits : nat) (enum_text : list N),
        pipeline max_str_digits enum_text []
        = match read_enums max_str_digits enum_text with
          | Ok _ => Ok []
          | Raise x => Raise x
          end)
  /\ json_dumps [] = py "[]".
Proof.
  apply (no_domain_list_line []).
  intros ln name span ->%list_elem_of_singleton Hl%scan_domain_list_iff.
  discriminate Hl.
Defined.

(** ** The order of the enum lines *)

Lemma last_value_NoDup {V} (l : list (list N * V)) (k : list N) (v : V) :
  NoDup l.*1 -> (k, v) ∈ l -> last_value k l = Some v.
Proof.
  intros Hnd (pre & post & ->)%list_elem_of_split.
  apply last_value_last. rewrite fmap_app, fmap_cons in Hnd.
  apply NoDup_app in Hnd as (_ & _ & Hpost).
  by apply NoDup_cons in Hpost as [Hk _].
Qed.

Lemma last_value_Permutation {V} (l l' : list (list N * V)) (k : list N) :
  NoDup l.*1 -> l ≡ₚ l' -> last_value k l = last_value k l'.
Proof.
  intros Hnd Hperm.
  assert (NoDup l'.*1) as Hnd' by by rewrite <- Hperm.
  destruct (last_value k l) as [v|] eqn:Hl.
  - symmetry. apply last_value_NoDup; [done|].
    rewrite <- Hperm. by apply last_value_elem.
  - symmetry. apply last_value_None. rewrite <- Hperm.
    by apply last_value_None.
Qed.

(** X11. The order of the enum lines does not matter when no name occurs
    twice: a text with the same lines in another order gives the same enum
    mapping. *)
Theorem enum_line_order (max_str_digits : nat) (text text' : list N)
  (enums : gmap (list N) Z) :
  read_enums max_str_digits text = Ok enums ->
  split 10 text' ≡ₚ split 10 text ->
  NoDup (omap enum_entry (split 10 text)).*1 ->
  read_enums max_str_digits text' = Ok enums.
Proof.
  intros [Hl ->]%read_enums_Ok Hperm Hnd.
  rewrite read_enums_foldl.
  - f_equal. apply map_eq. intros k. rewrite !read_enums_lookup.
    symmetry. apply last_value_Permutation; [done|]. by rewrite Hperm.
  - apply forallb_forall. intros ln Hln%list_elem_of_In.
    rewrite forallb_forall in Hl. apply Hl, list_elem_of_In.
    by rewrite <- Hperm.
Qed.

Lemma enum_line_order_witness :
  read_enums 4300 (py "Bar = 1," ++ [10] ++ py "Foo = 0,")
  = Ok (<[py "Bar" := 1%Z]> (<[py "Foo" := 0%Z]> ∅)).
Proof.
  apply (enum_line_order 4300 scenario_enum_text
           (py "Bar = 1," ++ [10] ++ py "Foo = 0,")).
  - vm_compute. reflexivity.
  - apply (Permutation_swap (py "Foo = 0,") (py "Bar = 1,") []).
  - apply (bool_decide_unpack _). vm_compute. exact I.
Defined.

(** ** Strings and integers in the JSON text *)

Lemma escape_char_verbatim c : is_verbatim c = true -> escape_char c = [c].
Proof.
  unfold is_verbatim, in_range.
  intros [[[Hlo%N.leb_le Hhi%N.leb_le]%andb_true_iff
             H34%negb_true_iff]%andb_true_iff H92%negb_true_iff]%andb_true_iff.
  unfold escape_char, in_range. rewrite H92, H34.
  replace (c =? 8) with false by (symmetry; apply N.eqb_neq; lia).
  replace (c =? 12) with false by (symmetry; apply N.eqb_neq; lia).
  replace (c =? 10) with false by (symmetry; apply N.eqb_neq; lia).
  replace (c =? 13) with false by (symmetry; apply N.eqb_neq; lia).
  replace (c =? 9) with false by (symmetry; apply N.eqb_neq; lia).
  apply N.leb_le in Hlo, Hhi. by rewrite Hlo, Hhi.
Qed.

(** X12. Ordinary domains are written as they are: a string of printable
    ASCII characters without double quote and backslash is written between
    double quotes, unchanged. *)
Theorem encode_str_verbatim (s : list N) :
  forallb is_verbatim s = true -> encode_str s = quoted s.
Proof.
  intros Hs. unfold encode_str, quoted. f_equal. f_equal.
  induction s as [|c s IH]; [done|]. cbn [forallb] in Hs.
  apply andb_true_iff in Hs as [Hc Hs]. rewrite fmap_cons. cbn [concat].
  by rewrite escape_char_verbatim, IH.
Qed.

Lemma encode_str_verbatim_witness :
  encode_str (py "login.example.com") = quoted (py "login.example.com").
Proof. apply (encode_str_verbatim (py "login.example.com")). reflexivity. Defined.

Lemma py_String a s : py (String a s) = N_of_ascii a :: py s.
Proof. reflexivity. Qed.

Ltac digit_step :=
  match goal with
  | |- context [digit_value ?c] =>
      let v := eval vm_compute in (digit_value c) in
      change (digit_value c) with v
  end.

Lemma decimal_acc (d : Decimal.uint) (acc : positive) :
  fold_left (fun acc c => (10 * acc + digit_value c)%Z)
    (py (NilEmpty.string_of_uint d)) (Zpos acc)
  = Zpos (Pos.of_uint_acc d acc).
Proof.
  revert acc.
  induction d as [|d IH|d IH|d IH|d IH|d IH|d IH|d IH|d IH|d IH|d IH];
    intros acc; [done|..];
    cbn [NilEmpty.string_of_uint Pos.of_uint_acc]; rewrite py_String;
    cbn [fold_left]; rewrite <- IH; f_equal; digit_step; lia.
Qed.

Lemma decimal_uint (d : Decimal.uint) :
  decimal (py (NilEmpty.string_of_uint d)) = Z.of_N (Pos.of_uint d).
Proof.
  unfold decimal.
  induction d as [|d IH|d IH|d IH|d IH|d IH|d IH|d IH|d IH|d IH|d IH];
    [done|..];
    cbn [NilEmpty.string_of_uint Pos.of_uint]; rewrite py_String;
    cbn [fold_left]; digit_step; [exact IH|..];
    cbn [Z.of_N]; rewrite <- decimal_acc; reflexivity.
Qed.

Lemma digits_uint (d : Decimal.uint) :
  forallb is_digit (py (NilEmpty.string_of_uint d)) = true.
Proof. induction d; simpl; try done; by rewrite IHd. Qed.

Lemma encode_int_nonneg z :
  (0 <= z)%Z ->
  encode_int z <> [] /\ forallb is_digit (encode_int z) = true
  /\ decimal (encode_int z) = z.
Proof.
  intros Hz. unfold encode_int.
  pose proof (DecimalZ.of_to z) as Hof.
  destruct z as [|p|p]; [done| |lia].
  cbn [Z.to_int NilZero.string_of_int] in *.
  unfold Z.of_int, Z.of_uint in Hof.
  destruct (Pos.to_uint p) as [|d|d|d|d|d|d|d|d|d|d] eqn:Hd;
    cbn [NilZero.string_of_uint];
    (split; [done|]); (split; [apply (digits_uint (_ d)) || done|]);
    try (rewrite <- Hof; apply (decimal_uint (_ d))).
  done.
Qed.

(** X13. The type written in the file reads back as the enum value: for an
    integer that is not negative, the JSON text of the integer is a
    non-empty run of decimal digits, and the conversion the script applies
    to the digits of an enum line gives back the integer (provided the
    digits are within the interpreter's limit). *)
Theorem type_round_trip (max_str_digits : nat) (z : Z) :
  (0 <= z)%Z ->
  (max_str_digits = 0 \/ length (encode_int z) <= max_str_digits)%nat ->
  forallb is_digit (encode_int z) = true
  /\ int max_str_digits (encode_int z) = Ok z.
Proof.
  intros (Hne & Hd & Hz)%encode_int_nonneg Hl%within_limit_iff.
  split; [done|]. rewrite int_decimal by done. by rewrite Hz.
Qed.

Lemma type_round_trip_witness :
  forallb is_digit (encode_int 120) = true
  /\ int 4300 (encode_int 120) = Ok 120%Z.
Proof.
  apply (type_round_trip 4300 120); [lia|]. right. vm_compute. lia.
Defined.

(** ** Commas *)

Lemma split_app sep a b :
  split sep (a ++ sep :: b) = split sep a ++ split sep b.
Proof.
  induction a as [|c a IH]; cbn [app split].
  - by rewrite N.eqb_refl.
  - destruct (c =? sep); [by rewrite IH|]. rewrite IH.
    pose proof (split_nonempty sep a). by destruct (split sep a).
Qed.

Lemma split_none sep s :
  forallb (fun c => negb (c =? sep)) s = true -> split sep s = [s].
Proof.
  induction s as [|c s IH]; [done|]. cbn [forallb split].
  intros [Hc%negb_true_iff Hs]%andb_true_iff. by rewrite Hc, IH.
Qed.

Lemma split_length sep s :
  length (split sep s) = S (length (filter (fun c => c = sep) s)).
Proof.
  induction s as [|c s IH]; [done|]. cbn [split].
  destruct (N.eqb_spec c sep) as [->|Hne].
  - rewrite filter_cons_True by done. cbn [length]. by rewrite IH.
  - rewrite filter_cons_False by done. rewrite <- IH.
    pose proof (split_nonempty sep s). by destruct (split sep s).
Qed.

Lemma strip_all chars ws :
  forallb (mem chars) ws = true -> strip chars ws = [].
Proof.
  intros Hws. unfold strip, lstrip, rstrip.
  rewrite <- (app_nil_r ws), drop_while_blanks by done. done.
Qed.

(** X14. One domain for each comma, and one more: a domain list line stores
    as many domains as its span has commas, plus one.  So a span that ends
    with a comma, followed by spaces or not, stores an empty domain at the
    end of the list, and a span of spaces stores the empty domain alone. *)
Theorem domains_per_comma
  (domain_lists : list (list N * list (list N))) (name span ln : list N) :
  domain_list_line name span ln ->
  exists domains,
    domain_lists_body domain_lists ln = Ok (od_set name domains domain_lists)
    /\ length domains = S (length (filter (fun c => c = 44) span))
    /\ (forall items ws,
          span = items ++ py "," ++ ws ->
          forallb (mem (py " " ++ [dq])) ws = true ->
          domains = (strip (py " " ++ [dq]) <$> split 44 items) ++ [[]])
    /\ (forallb (mem (py " " ++ [dq])) span = true -> domains = [[]]).
Proof.
  intros Hl. exists (strip strip_chars <$> split 44 span).
  split; [by apply domain_lists_body_line|].
  split; [by rewrite length_fmap, split_length|].
  assert (forall ws, forallb (mem strip_chars) ws = true ->
            split 44 ws = [ws]) as Hws.
  { intros ws Hws. apply split_none. rewrite forallb_forall in Hws.
    apply forallb_forall. intros c Hc. specialize (Hws c Hc).
    destruct (N.eqb_spec c 44) as [->|]; [|done]. done. }
  split.
  - intros items ws -> Hblank.
    change (py "," ++ ws) with (44 :: ws).
    rewrite split_app, fmap_app, (Hws ws) by done.
    cbn [fmap list_fmap]. by rewrite strip_all.
  - intros Hblank. rewrite (Hws span) by done.
    cbn [fmap list_fmap]. by rewrite strip_all.
Qed.

Lemma domains_per_comma_witness :
  exists domains,
    domain_lists_body []
      (py "GlobalDomains.Add(GlobalEquivalentDomainsType.Foo, new List<string> { "
       ++ quoted (py "a.com") ++ py ", });")
    = Ok (od_set (py "Foo") domains [])
    /\ length domains
       = S (length (filter (fun c => c = 44)
                      (py " " ++ quoted (py "a.com") ++ py ", ")))
    /\ (forall items ws,
          py " " ++ quoted (py "a.com") ++ py ", " = items ++ py "," ++ ws ->
          forallb (mem (py " " ++ [dq])) ws = true ->
          domains = (strip (py " " ++ [dq]) <$> split 44 items) ++ [[]])
    /\ (forallb (mem (py " " ++ [dq]))
          (py " " ++ quoted (py "a.com") ++ py ", ") = true ->
        domains = [[]]).
Proof.
  apply (domains_per_comma [] (py "Foo")
           (py " " ++ quoted (py "a.com") ++ py ", ")).
  apply scan_domain_list_iff. vm_compute. reflexivity.
Defined.

(** The line of the witness stores [a.com] and the empty domain. *)
Example trailing_comma :
  domain_lists_body []
    (py "GlobalDomains.Add(GlobalEquivalentDomainsType.Foo, new List<string> { "
     ++ quoted (py "a.com") ++ py ", });")
  = Ok [(py "Foo", [py "a.com"; []])].
Proof. vm_compute. reflexivity. Qed.
